(** * zfs_snapshot: a shallow embedding of the retention engine

    The development follows the two source modules,
    [zfs_snapshot/zfs_snapshot.py] (snapshot names, the listings, the
    classifier, the per-volume executor) and [zfs_snapshot/__main__.py] (the
    policy table, the validators of the command line, the cut-off
    calculator, the volume-set resolver and [main]).

    - A Python [str] is a [string], one [ascii] per character (code points
      below 256).
    - A Python [int] is a [Z].
    - A call that may raise is a [result]; code that talks to zfs(8) runs in
      the monad [M], which threads the list of commands handed to [zfs].
    - The standard-library types [datetime], [timedelta] and
      [time.struct_time] are modelled by their values, with the range checks
      of the library written out.
    - [time.strptime], [time.strftime] and the zfs(8) executable are
      parameters: what is proved holds for every behaviour of the three.

    The definitions come first: the library types, a reference
    implementation of the two time functions and a sample world for the
    examples, then the program.  The facts follow: the calendar, the
    classifier, the date format, the cutoff, one pass over a volume, a
    whole run, the listings, what a pass and a run may destroy and where
    they stop, the order of the destroys and of the passes, the validators,
    the names a run creates as a later run reads them, and last the
    examples. *)

From Stdlib Require Import ZArith List String Ascii Bool Lia.
From Stdlib Require Import Sorting.Sorted Sorting.Permutation.
From Stdlib Require Import DecimalString DecimalPos.
Import ListNotations.

Open Scope string_scope.
Open Scope Z_scope.

(** ** Exceptions and results *)

(** The exception classes the modelled code can meet.  [ValueError] stands
    for the class and its subclasses, which is what [except ValueError]
    catches; [RegexError] is [re.error], which [time.strptime] lets through
    when a format names a directive twice.  [NotModelled] is no class of
    Python: it is the answer of the reference functions below on an input
    they do not cover. *)
Inductive exn : Type :=
| ValueError
| TypeError
| IndexError
| OverflowError
| RegexError
| VdevNotFoundError
| CalledProcessError
| NotModelled.

Inductive result (A : Type) : Type :=
| Return (a : A)
| Raise (e : exn).

Arguments Return {A} a.
Arguments Raise {A} e.

Definition rbind {A B : Type} (r : result A) (k : A -> result B) : result B :=
  match r with
  | Return a => k a
  | Raise e => Raise e
  end.

Declare Scope result_scope.
Delimit Scope result_scope with result.
Notation "x <- r ;; k" := (rbind r (fun x => k))
  (at level 61, r at next level, right associativity) : result_scope.

(** ** The proleptic Gregorian calendar of [datetime] *)

Module Calendar.

(** [_is_leap]. *)
Definition is_leap (year : Z) : bool :=
  (year mod 4 =? 0) && (negb (year mod 100 =? 0) || (year mod 400 =? 0)).

(** [_days_before_year]: number of days before January 1st of [year]. *)
Definition days_before_year (year : Z) : Z :=
  let y := year - 1 in
  y * 365 + y / 4 - y / 100 + y / 400.

(** [_DAYS_IN_MONTH], entry 0 being the placeholder. *)
Definition DAYS_IN_MONTH : list Z :=
  [-1; 31; 28; 31; 30; 31; 30; 31; 31; 30; 31; 30; 31].

(** [_DAYS_BEFORE_MONTH], entry 0 being the placeholder. *)
Definition DAYS_BEFORE_MONTH : list Z :=
  [-1; 0; 31; 59; 90; 120; 151; 181; 212; 243; 273; 304; 334].

Definition table (t : list Z) (month : Z) : Z :=
  nth (Z.to_nat month) t (-1).

(** [_days_in_month], for [1 <= month <= 12]. *)
Definition days_in_month (year month : Z) : Z :=
  if (month =? 2) && is_leap year then 29 else table DAYS_IN_MONTH month.

(** [_days_before_month], for [1 <= month <= 12]. *)
Definition days_before_month (year month : Z) : Z :=
  table DAYS_BEFORE_MONTH month
  + (if (2 <? month) && is_leap year then 1 else 0).

(** [_ymd2ord]: 01-Jan-0001 is day 1. *)
Definition ymd2ord (year month day : Z) : Z :=
  days_before_year year + days_before_month year month + day.

Definition DI400Y : Z := Eval cbv in days_before_year 401.
Definition DI100Y : Z := Eval cbv in days_before_year 101.
Definition DI4Y : Z := Eval cbv in days_before_year 5.

Definition MAXORDINAL : Z := 3652059.

(** The end of [_ord2ymd]: the month and the day for the offset [n] of a day
    from January 1st, through an estimate of the month that is exact or one
    too large. *)
Definition month_and_day (leapyear : bool) (n : Z) : Z * Z :=
  let month := Z.shiftr (n + 50) 5 in
  let preceding :=
    table DAYS_BEFORE_MONTH month
    + (if (2 <? month) && leapyear then 1 else 0) in
  if n <? preceding then
    let month := month - 1 in
    let preceding :=
      preceding
      - (table DAYS_IN_MONTH month
         + (if (month =? 2) && leapyear then 1 else 0)) in
    (month, n - preceding + 1)
  else (month, n - preceding + 1).

(** [_ord2ymd]: ordinal to (year, month, day). *)
Definition ord2ymd (n : Z) : Z * Z * Z :=
  let n := n - 1 in
  let n400 := n / DI400Y in
  let n := n mod DI400Y in
  let year := n400 * 400 + 1 in
  let n100 := n / DI100Y in
  let n := n mod DI100Y in
  let n4 := n / DI4Y in
  let n := n mod DI4Y in
  let n1 := n / 365 in
  let n := n mod 365 in
  let year := year + n100 * 100 + n4 * 4 + n1 in
  if (n1 =? 4) || (n100 =? 4) then (year - 1, 12, 31)
  else
    let leapyear := (n1 =? 3) && (negb (n4 =? 24) || (n100 =? 3)) in
    let '(month, day) := month_and_day leapyear n in
    (year, month, day).

(** A date the [date] constructor accepts. *)
Definition valid_date (year month day : Z) : bool :=
  (1 <=? year) && (year <=? 9999) && (1 <=? month) && (month <=? 12)
  && (1 <=? day) && (day <=? days_in_month year month).

End Calendar.

(** ** [time.struct_time] *)

Record struct_time : Type := mk_struct_time {
  tm_year : Z;
  tm_mon : Z;
  tm_mday : Z;
  tm_hour : Z;
  tm_min : Z;
  tm_sec : Z;
  tm_wday : Z;
  tm_yday : Z;
  tm_isdst : Z
}.

(** A [struct_time] is a tuple of its nine fields. *)
Definition as_tuple (t : struct_time) : list Z :=
  [tm_year t; tm_mon t; tm_mday t; tm_hour t; tm_min t; tm_sec t;
   tm_wday t; tm_yday t; tm_isdst t].

(** [<] on tuples of integers: the first position where the two differ
    decides, and a proper prefix is smaller. *)
Fixpoint tuple_ltb (a b : list Z) : bool :=
  match a, b with
  | [], [] => false
  | [], _ :: _ => true
  | _ :: _, [] => false
  | x :: a', y :: b' => if x =? y then tuple_ltb a' b' else x <? y
  end.

Definition struct_time_ltb (a b : struct_time) : bool :=
  tuple_ltb (as_tuple a) (as_tuple b).

(** [_build_struct_time] of [datetime]. *)
Definition build_struct_time (y m d hh mm ss dstflag : Z) : struct_time :=
  let wday := (Calendar.ymd2ord y m d + 6) mod 7 in
  let dnum := Calendar.days_before_month y m + d in
  mk_struct_time y m d hh mm ss wday dnum dstflag.

(** ** [datetime.timedelta] and naive [datetime.datetime] *)

Definition US_PER_SECOND : Z := 1000000.
Definition US_PER_DAY : Z := 86400 * US_PER_SECOND.

(** A [timedelta] is its normalised (days, seconds, microseconds) triple,
    kept as the total number of microseconds; [days] is the floor quotient. *)
Record timedelta : Type := mk_timedelta { td_microseconds : Z }.

Definition td_days (td : timedelta) : Z := td_microseconds td / US_PER_DAY.

Definition MAX_DELTA_DAYS : Z := 999999999.

(** Microseconds in one unit of a keyword of the [timedelta] constructor. *)
Definition keyword_microseconds (kw : string) : option Z :=
  if (kw =? "weeks")%string then Some (7 * US_PER_DAY)
  else if (kw =? "days")%string then Some US_PER_DAY
  else if (kw =? "hours")%string then Some (3600 * US_PER_SECOND)
  else if (kw =? "minutes")%string then Some (60 * US_PER_SECOND)
  else if (kw =? "seconds")%string then Some US_PER_SECOND
  else if (kw =? "milliseconds")%string then Some 1000
  else if (kw =? "microseconds")%string then Some 1
  else None.

(** [datetime.timedelta( **{kw: n})] for an integer [n]: an unknown keyword
    is a [TypeError], more than 999999999 days either way an
    [OverflowError]. *)
Definition new_timedelta (kw : string) (n : Z) : result timedelta :=
  match keyword_microseconds kw with
  | None => Raise TypeError
  | Some u =>
      let td := mk_timedelta (n * u) in
      if Z.abs (td_days td) <=? MAX_DELTA_DAYS then Return td
      else Raise OverflowError
  end.

(** The in-range constants of the policy table. *)
Definition timedelta_weeks (n : Z) : timedelta := mk_timedelta (n * (7 * US_PER_DAY)).
Definition timedelta_days (n : Z) : timedelta := mk_timedelta (n * US_PER_DAY).
Definition timedelta_hours (n : Z) : timedelta :=
  mk_timedelta (n * (3600 * US_PER_SECOND)).

(** A naive [datetime] is the [timedelta] its arithmetic works on: the
    proleptic Gregorian ordinal of its date as days, then the time of day,
    in microseconds. *)
Record datetime : Type := mk_datetime { dt_microseconds : Z }.

Definition toordinal (d : datetime) : Z := dt_microseconds d / US_PER_DAY.

(** The values the type holds: 0001-01-01 to 9999-12-31. *)
Definition datetime_in_range (us : Z) : bool :=
  (0 <? us / US_PER_DAY) && (us / US_PER_DAY <=? Calendar.MAXORDINAL).

(** [datetime.__sub__] with a [timedelta]: [OverflowError] when the result
    leaves the range of the type. *)
Definition datetime_sub (d : datetime) (td : timedelta) : result datetime :=
  let us := dt_microseconds d - td_microseconds td in
  if datetime_in_range us then Return (mk_datetime us) else Raise OverflowError.

(** [datetime(year, month, day, hour, minute, second, microsecond)] on
    fields the constructor accepts. *)
Definition datetime_of (y m d hh mm ss us : Z) : datetime :=
  mk_datetime
    (Calendar.ymd2ord y m d * US_PER_DAY
     + (hh * 3600 + mm * 60 + ss) * US_PER_SECOND + us).

(** [datetime.timetuple] of a naive value: the microseconds are dropped and
    [tm_isdst] is -1. *)
Definition timetuple (d : datetime) : struct_time :=
  let '(y, m, dd) := Calendar.ord2ymd (toordinal d) in
  let secs := (dt_microseconds d mod US_PER_DAY) / US_PER_SECOND in
  build_struct_time y m dd (secs / 3600) ((secs mod 3600) / 60) (secs mod 60) (-1).

(** ** Strings *)

Definition code (c : ascii) : nat := nat_of_ascii c.

Definition in_range (lo hi n : nat) : bool := Nat.leb lo n && Nat.leb n hi.

(** [str.isspace] on one character. *)
Definition isspace (c : ascii) : bool :=
  in_range 9 13 (code c) || in_range 28 32 (code c)
  || Nat.eqb (code c) 133 || Nat.eqb (code c) 160.

(** The line boundaries of [str.splitlines]. *)
Definition is_linebreak (c : ascii) : bool :=
  in_range 10 13 (code c) || in_range 28 30 (code c) || Nat.eqb (code c) 133.

Definition snoc (s : string) (c : ascii) : string := s ++ String c "".

Definition is_empty (s : string) : bool :=
  match s with "" => true | _ => false end.

(** [str.split()] with no argument: the maximal runs of non-space
    characters. *)
Fixpoint split_from (cur s : string) : list string :=
  match s with
  | "" => if is_empty cur then [] else [cur]
  | String c s' =>
      if isspace c then
        if is_empty cur then split_from "" s' else cur :: split_from "" s'
      else split_from (snoc cur c) s'
  end.

Definition split (s : string) : list string := split_from "" s.

(** [str.splitlines()]: a carriage return followed by a line feed is one
    boundary, and no empty last line is reported. *)
Fixpoint splitlines_from (cur s : string) : list string :=
  match s with
  | "" => if is_empty cur then [] else [cur]
  | String c s' =>
      if is_linebreak c then
        match s' with
        | String c' s'' =>
            if Nat.eqb (code c) 13 && Nat.eqb (code c') 10
            then cur :: splitlines_from "" s''
            else cur :: splitlines_from "" s'
        | "" => [cur]
        end
      else splitlines_from (snoc cur c) s'
  end.

Definition splitlines (s : string) : list string := splitlines_from "" s.

(** [sorted(l, reverse=True)] on strings, which compare by code point. *)
Fixpoint insert_reverse (x : string) (l : list string) : list string :=
  match l with
  | [] => [x]
  | y :: l' => if (x <? y)%string then y :: insert_reverse x l' else x :: l
  end.

Definition sorted_reverse (l : list string) : list string :=
  fold_right insert_reverse [] l.

(** [str.lower] on one character: the capital letters of ASCII and of
    Latin-1 move up by 32. *)
Definition lower_char (c : ascii) : ascii :=
  if in_range 65 90 (code c) || in_range 192 214 (code c)
     || in_range 216 222 (code c)
  then ascii_of_nat (code c + 32) else c.

Fixpoint str_lower (s : string) : string :=
  match s with
  | "" => ""
  | String c s' => String (lower_char c) (str_lower s')
  end.

(** [x in l] on strings. *)
Definition contains (l : list string) (x : string) : bool :=
  existsb (String.eqb x) l.

(** *** [int(s)] on a string *)

(** The white space [int] skips at both ends: the one of [str.isspace]
    without the four separators 28 to 31. *)
Definition int_space (c : ascii) : bool :=
  in_range 9 13 (code c) || Nat.eqb (code c) 32
  || Nat.eqb (code c) 133 || Nat.eqb (code c) 160.

Definition is_digit (c : ascii) : bool := in_range 48 57 (code c).

Fixpoint skip_spaces (s : string) : string :=
  match s with
  | "" => ""
  | String c s' => if int_space c then skip_spaces s' else s
  end.

(** The digits of a numeral, single underscores allowed between two digits:
    the value, the number of digits, and what follows. *)
Fixpoint scan_digits (s : string) (after_digit : bool) (acc : Z) (count : nat)
  : option (Z * nat * string) :=
  match s with
  | "" => if after_digit then Some (acc, count, "") else None
  | String c s' =>
      if is_digit c
      then scan_digits s' true (acc * 10 + (Z.of_nat (code c) - 48)) (S count)
      else if (c =? "_")%char
      then if after_digit then scan_digits s' false acc count else None
      else if after_digit then Some (acc, count, s) else None
  end.

(** The default of [sys.set_int_max_str_digits]. *)
Definition MAX_STR_DIGITS : nat := 4300.

(** [int(s)], base 10: white space, a sign, the digits, white space. *)
Definition int_of_string (s : string) : result Z :=
  let s := skip_spaces s in
  let '(negative, s) :=
    match s with
    | String c s' =>
        if (c =? "-")%char then (true, s')
        else if (c =? "+")%char then (false, s')
        else (false, s)
    | "" => (false, s)
    end in
  match scan_digits s false 0 0 with
  | Some (value, count, rest) =>
      if Nat.ltb MAX_STR_DIGITS count then Raise ValueError
      else if is_empty (skip_spaces rest)
      then Return (if negative then - value else value)
      else Raise ValueError
  | None => Raise ValueError
  end.

(** ** A reference [time.strptime] and [time.strftime]

    The program is verified for every behaviour of [time.strptime] and
    [time.strftime] (they are parameters of the section below).  The
    definitions here implement both on the fragment the tool produces, the
    directives [%Y %m %d %H %M %S %%] between literal ASCII text, and are the
    instances the examples run on.  A format outside the fragment is
    answered with [NotModelled]. *)

Module Reference.

Inductive directive : Type := DY | Dm | Dd | DH | DM | DS.

Inductive item : Type :=
| Lit (c : ascii)
| Dir (d : directive).

Definition directive_eqb (a b : directive) : bool :=
  match a, b with
  | DY, DY | Dm, Dm | Dd, Dd | DH, DH | DM, DM | DS, DS => true
  | _, _ => false
  end.

(** What follows a [%]. *)
Inductive after_percent : Type :=
| Supported (i : item)
| Unsupported
| Bad.

(** The keys of [TimeRE]: the modelled ones, the ones left out, and
    everything else, which is a bad directive. *)
Definition classify (c : ascii) : after_percent :=
  if (c =? "Y")%char then Supported (Dir DY)
  else if (c =? "m")%char then Supported (Dir Dm)
  else if (c =? "d")%char then Supported (Dir Dd)
  else if (c =? "H")%char then Supported (Dir DH)
  else if (c =? "M")%char then Supported (Dir DM)
  else if (c =? "S")%char then Supported (Dir DS)
  else if (c =? "%")%char then Supported (Lit "%")
  else if existsb (Ascii.eqb c) (list_ascii_of_string "fIGjUwuVyzAaBbpZWcxX")
  then Unsupported
  else Bad.

(** Literal text the fragment covers: ASCII, no white space (a run of
    white space in a format matches any run of white space). *)
Definition plain (c : ascii) : bool :=
  in_range 33 127 (code c) || in_range 1 8 (code c) || in_range 14 27 (code c).

(** The format as a list of items; [None] is a format [_strptime] rejects
    with [ValueError] (a bad directive or a stray [%]). *)
Fixpoint scan (f : string) : option (list (option item)) :=
  match f with
  | "" => Some []
  | String c f' =>
      if (c =? "%")%char then
        match f' with
        | "" => None
        | String d f'' =>
            match classify d with
            | Supported i => option_map (cons (Some i)) (scan f'')
            | Unsupported => option_map (cons None) (scan f'')
            | Bad => None
            end
        end
      else option_map (cons (if plain c then Some (Lit c) else None)) (scan f')
  end.

Fixpoint all_some {A : Type} (l : list (option A)) : option (list A) :=
  match l with
  | [] => Some []
  | Some a :: l' => option_map (cons a) (all_some l')
  | None :: _ => None
  end.

(** A directive is a named group, and a name may be defined once. *)
Fixpoint distinct_directives (l : list item) : bool :=
  match l with
  | [] => true
  | Lit _ :: l' => distinct_directives l'
  | Dir d :: l' =>
      negb (existsb (fun i => match i with
                              | Dir d' => directive_eqb d d'
                              | Lit _ => false
                              end) l')
      && distinct_directives l'
  end.

(** The alternatives of each directive's pattern, in order, as ranges of
    character codes. *)
Definition digits : nat * nat := (48, 57)%nat.
Definition chr (c : ascii) : nat * nat := (code c, code c).
Definition rng (a b : ascii) : nat * nat := (code a, code b).

Definition alternatives (d : directive) : list (list (nat * nat)) :=
  match d with
  | DY => [[digits; digits; digits; digits]]
  | Dm => [[chr "1"; rng "0" "2"]; [chr "0"; rng "1" "9"]; [rng "1" "9"]]
  | Dd => [[chr "3"; rng "0" "1"]; [rng "1" "2"; digits];
           [chr "0"; rng "1" "9"]; [rng "1" "9"]; [chr " "; rng "1" "9"]]
  | DH => [[chr "2"; rng "0" "3"]; [rng "0" "1"; digits]; [digits]]
  | DM => [[rng "0" "5"; digits]; [digits]]
  | DS => [[chr "6"; rng "0" "1"]; [rng "0" "5"; digits]; [digits]]
  end.

Definition digit_value (c : ascii) : Z :=
  if in_range 48 57 (code c) then Z.of_nat (code c) - 48 else 0.

(** One alternative against the head of [s]: the number read, and the
    rest. *)
Fixpoint match_alt (alt : list (nat * nat)) (s : string) (acc : Z)
  : option (Z * string) :=
  match alt with
  | [] => Some (acc, s)
  | (lo, hi) :: alt' =>
      match s with
      | String c s' =>
          if in_range lo hi (code c)
          then match_alt alt' s' (acc * 10 + digit_value c)
          else None
      | "" => None
      end
  end.

Record parsed : Type := mk_parsed {
  p_year : option Z;
  p_month : Z;
  p_day : Z;
  p_hour : Z;
  p_minute : Z;
  p_second : Z
}.

Definition defaults : parsed := mk_parsed None 1 1 0 0 0.

Definition store (d : directive) (v : Z) (p : parsed) : parsed :=
  match d with
  | DY => mk_parsed (Some v) (p_month p) (p_day p) (p_hour p) (p_minute p) (p_second p)
  | Dm => mk_parsed (p_year p) v (p_day p) (p_hour p) (p_minute p) (p_second p)
  | Dd => mk_parsed (p_year p) (p_month p) v (p_hour p) (p_minute p) (p_second p)
  | DH => mk_parsed (p_year p) (p_month p) (p_day p) v (p_minute p) (p_second p)
  | DM => mk_parsed (p_year p) (p_month p) (p_day p) (p_hour p) v (p_second p)
  | DS => mk_parsed (p_year p) (p_month p) (p_day p) (p_hour p) (p_minute p) v
  end.

Fixpoint first_some {A B : Type} (f : A -> option B) (l : list A) : option B :=
  match l with
  | [] => None
  | a :: l' => match f a with Some b => Some b | None => first_some f l' end
  end.

(** The pattern is compiled with [IGNORECASE]. *)
Definition lower (c : ascii) : ascii :=
  if in_range 65 90 (code c) then ascii_of_nat (code c + 32) else c.

(** [re.match]: the first way, in the order of the alternatives, in which
    the whole pattern matches a prefix of [s]. *)
Fixpoint match_items (items : list item) (s : string) (p : parsed)
  : option (parsed * string) :=
  match items with
  | [] => Some (p, s)
  | Lit c :: items' =>
      match s with
      | String c' s' =>
          if (lower c =? lower c')%char then match_items items' s' p else None
      | "" => None
      end
  | Dir d :: items' =>
      first_some
        (fun alt =>
           match match_alt alt s 0 with
           | Some (v, s') => match_items items' s' (store d v p)
           | None => None
           end)
        (alternatives d)
  end.

(** The tail of [_strptime]: the default year, the date check of
    [datetime_date], the day of the year and the day of the week. *)
Definition finish (p : parsed) : result struct_time :=
  let leap_year_fix :=
    match p_year p with
    | None => (p_month p =? 2) && (p_day p =? 29)
    | Some _ => false
    end in
  let year :=
    match p_year p with
    | Some y => y
    | None => if leap_year_fix then 1904 else 1900
    end in
  if Calendar.valid_date year (p_month p) (p_day p) then
    let ord := Calendar.ymd2ord year (p_month p) (p_day p) in
    let julian := ord - Calendar.ymd2ord year 1 1 + 1 in
    let weekday := (ord + 6) mod 7 in
    Return (mk_struct_time (if leap_year_fix then 1900 else year)
              (p_month p) (p_day p) (p_hour p) (p_minute p) (p_second p)
              weekday julian (-1))
  else Raise ValueError.

Definition strptime (data_string format : string) : result struct_time :=
  match scan format with
  | None => Raise ValueError
  | Some scanned =>
      match all_some scanned with
      | None => Raise NotModelled
      | Some items =>
          if distinct_directives items then
            match match_items items data_string defaults with
            | Some (p, "") => finish p
            | _ => Raise ValueError
            end
          else Raise RegexError
      end
  end.

(** Decimal digits. *)
Definition digit (n : Z) : ascii := ascii_of_nat (48 + Z.to_nat n).

Definition two_digits (n : Z) : string :=
  String (digit (n / 10)) (String (digit (n mod 10)) "").

Fixpoint decimal (fuel : nat) (n : Z) : string :=
  match fuel with
  | O => ""
  | S fuel' =>
      if n <? 10 then String (digit n) ""
      else snoc (decimal fuel' (n / 10)) (digit (n mod 10))
  end.

Definition render (d : directive) (t : struct_time) : string :=
  match d with
  | DY => decimal 4 (tm_year t)
  | Dm => two_digits (tm_mon t)
  | Dd => two_digits (tm_mday t)
  | DH => two_digits (tm_hour t)
  | DM => two_digits (tm_min t)
  | DS => two_digits (tm_sec t)
  end.

Fixpoint render_items (items : list item) (t : struct_time) : string :=
  match items with
  | [] => ""
  | Lit c :: items' => String c (render_items items' t)
  | Dir d :: items' => render d t ++ render_items items' t
  end.

(** The fields [strftime] is modelled on. *)
Definition ordinary (t : struct_time) : bool :=
  (1 <=? tm_year t) && (tm_year t <=? 9999)
  && (1 <=? tm_mon t) && (tm_mon t <=? 12)
  && (1 <=? tm_mday t) && (tm_mday t <=? 31)
  && (0 <=? tm_hour t) && (tm_hour t <=? 23)
  && (0 <=? tm_min t) && (tm_min t <=? 59)
  && (0 <=? tm_sec t) && (tm_sec t <=? 61)
  && (0 <=? tm_wday t) && (tm_wday t <=? 6)
  && (1 <=? tm_yday t) && (tm_yday t <=? 366).

(** [time.strftime] as the C library renders it: [%Y] is the year in
    decimal, the other numbers take two digits. *)
Definition strftime (format : string) (t : struct_time) : result string :=
  match scan format with
  | None => Raise NotModelled
  | Some scanned =>
      match all_some scanned with
      | None => Raise NotModelled
      | Some items =>
          if ordinary t then Return (render_items items t)
          else Raise NotModelled
      end
  end.

End Reference.

(** ** The commands handed to [zfs] *)

(** Every call of [zfs(arg_str)] is logged, in order, whether it succeeds or
    not. *)
Definition trace : Type := list string.

Definition M (A : Type) : Type := trace -> result A * trace.

Definition ret {A : Type} (a : A) : M A := fun tr => (Return a, tr).

Definition raise {A : Type} (e : exn) : M A := fun tr => (Raise e, tr).

Definition lift {A : Type} (r : result A) : M A := fun tr => (r, tr).

Definition bind {A B : Type} (m : M A) (k : A -> M B) : M B :=
  fun tr =>
    match m tr with
    | (Return a, tr') => k a tr'
    | (Raise e, tr') => (Raise e, tr')
    end.

Declare Scope M_scope.
Delimit Scope M_scope with M.
Notation "x <- m ;; k" := (bind m (fun x => k))
  (at level 61, m at next level, right associativity) : M_scope.
Notation "m ;; k" := (bind m (fun _ => k))
  (at level 61, right associativity) : M_scope.

(** A [for] loop whose body talks to zfs. *)
Fixpoint for_each {A : Type} (l : list A) (body : A -> M unit) : M unit :=
  match l with
  | [] => ret tt
  | a :: l' => (body a ;; for_each l' body)%M
  end.

(** A list comprehension with a condition that may raise. *)
Fixpoint filter_result {A : Type} (p : A -> result bool) (l : list A)
  : result (list A) :=
  match l with
  | [] => Return []
  | a :: l' =>
      (b <- p a ;;
       rest <- filter_result p l' ;;
       Return (if b then a :: rest else rest))%result
  end.

(** A list comprehension with an element expression that may raise. *)
Fixpoint map_result {A B : Type} (f : A -> result B) (l : list A)
  : result (list B) :=
  match l with
  | [] => Return []
  | a :: l' =>
      (b <- f a ;; rest <- map_result f l' ;; Return (b :: rest))%result
  end.

(** [l[i]] for an index that is not negative. *)
Definition getitem {A : Type} (l : list A) (i : nat) : result A :=
  match nth_error l i with
  | Some a => Return a
  | None => Raise IndexError
  end.

(** ** [zfs_snapshot.py]: names *)

Definition SNAPSHOT_SEPARATOR : string := "@".

Definition snapshot_name (vdev date_format : string) : string :=
  vdev ++ SNAPSHOT_SEPARATOR ++ date_format.

(** ** [__main__.py]: the policy table *)

Record SnapshotPolicy : Type := mk_SnapshotPolicy {
  name : string;
  lifetime : timedelta;
  date_format_qualifier : string
}.

Definition DATE_ELEMENT_SEPARATOR : string := ".".
Definition WEEKS_IN_A_MONTH : Z := 4.
Definition WEEKS_IN_A_YEAR : Z := 52.

Definition SNAPSHOT_CATEGORIES : list SnapshotPolicy :=
  [ mk_SnapshotPolicy "years" (timedelta_weeks (2 * WEEKS_IN_A_YEAR)) "Y";
    mk_SnapshotPolicy "months" (timedelta_weeks (1 * WEEKS_IN_A_YEAR)) "m";
    mk_SnapshotPolicy "days" (timedelta_weeks (1 * WEEKS_IN_A_MONTH)) "d";
    mk_SnapshotPolicy "hours" (timedelta_days 1) "H" ].

(** The hierarchical date string of [main], which depends on the order of
    [SNAPSHOT_CATEGORIES]: the local [date_format]. *)
Definition date_format_of (snapshot_period : nat) : result string :=
  (tokens <- map_result
               (fun i =>
                  category <- getitem SNAPSHOT_CATEGORIES i ;;
                  Return ("%" ++ date_format_qualifier category))
               (seq 0 (snapshot_period + 1)) ;;
   Return (String.concat DATE_ELEMENT_SEPARATOR tokens))%result.

(** The parsed command line. *)
Module Args.
Record Namespace : Type := mk_Namespace {
  lifetime : option Z;
  snapshot_period : nat;
  snapshot_prefix : string;
  recursive : bool;
  vdevs : list string
}.
End Args.

(** Truth value of [--lifetime]: [None] and [0] are false. *)
Definition truthy (lifetime_override : option Z) : option Z :=
  match lifetime_override with
  | Some n => if n =? 0 then None else Some n
  | None => None
  end.

Definition is_nil {A : Type} (l : list A) : bool :=
  match l with [] => true | _ => false end.

(** ** [__main__.py]: the validators of the command line *)

(** What a [type=] function of [argparse] does with an argument: it
    converts it, it refuses it with an [argparse.ArgumentTypeError] and its
    message, or it fails with another exception. *)
Inductive type_check (A : Type) : Type :=
| Converted (a : A)
| Refused (msg : string)
| Failed (e : exn).

Arguments Converted {A} a.
Arguments Refused {A} msg.
Arguments Failed {A} e.

Definition DEFAULT_SNAPSHOT_PERIOD : string := "hours".
Definition DEFAULT_SNAPSHOT_PREFIX : string := "auto".

(** Validate --lifetime to ensure that it's > 0. *)
Definition lifetime_type (optarg : string) : type_check Z :=
  match int_of_string optarg with
  | Raise e => Failed e
  | Return value =>
      if value <=? 0
      then Refused "Lifetime must be an integer value greater than 0"
      else Converted value
  end.

(** The loop of [period_type] over [enumerate(SNAPSHOT_CATEGORIES)]. *)
Fixpoint period_index (value : string) (i : nat) (l : list SnapshotPolicy)
  : option nat :=
  match l with
  | [] => None
  | mapping_tuple :: l' =>
      if (name mapping_tuple =? value)%string then Some i
      else period_index value (S i) l'
  end.

(** Validate --snapshot-period to ensure that the value passed is valid. *)
Definition period_type (optarg : string) : type_check nat :=
  let value := str_lower optarg in
  match period_index value 0 SNAPSHOT_CATEGORIES with
  | Some i => Converted i
  | None => Refused ("Invalid --snapshot-period: " ++ optarg)
  end.

(** Validate --prefix to ensure that it's a non-nul string. *)
Definition prefix_type (optarg : string) : type_check string :=
  let value := optarg in
  if negb (is_empty value) then Converted value
  else Refused "Snapshot prefix must be a non-zero length string".

(** ** Notions the specification is stated with *)

(** The instant a [struct_time] denotes, in seconds of naive wall-clock time
    since the start of ordinal day 0. *)
Definition instant (t : struct_time) : Z :=
  ((Calendar.ymd2ord (tm_year t) (tm_mon t) (tm_mday t) * 24 + tm_hour t) * 60
   + tm_min t) * 60 + tm_sec t.

(** A [struct_time] of a calendar date and a time of day, without a leap
    second, as [datetime.timetuple] builds it: the day of the week and the
    day of the year are those of the date, and [tm_isdst] is -1. *)
Definition well_formed (t : struct_time) : bool :=
  (1 <=? tm_mon t) && (tm_mon t <=? 12)
  && (1 <=? tm_mday t)
  && (tm_mday t <=? Calendar.days_in_month (tm_year t) (tm_mon t))
  && (0 <=? tm_hour t) && (tm_hour t <? 24)
  && (0 <=? tm_min t) && (tm_min t <? 60)
  && (0 <=? tm_sec t) && (tm_sec t <? 60)
  && (tm_wday t
      =? (Calendar.ymd2ord (tm_year t) (tm_mon t) (tm_mday t) + 6) mod 7)
  && (tm_yday t =? Calendar.days_before_month (tm_year t) (tm_mon t) + tm_mday t)
  && (tm_isdst t =? -1).

(** The composite date format in the words of the specification: the format
    tokens of the table entries 0 to [i], each behind a [%], joined by the
    separator. *)
Definition composite_format (i : nat) : string :=
  String.concat DATE_ELEMENT_SEPARATOR
    (map (fun category => "%" ++ date_format_qualifier category)
       (firstn (S i) SNAPSHOT_CATEGORIES)).

(** The clock counts from 1970-01-01 UTC and local time is less than a day
    away from UTC, so a [datetime.now()] is no earlier than 1969-12-31. *)
Definition EPOCH_ORDINAL : Z := Eval cbv in Calendar.ymd2ord 1970 1 1.

Definition clock_reading (d : datetime) : bool :=
  (EPOCH_ORDINAL - 1 <=? toordinal d) && (toordinal d <=? Calendar.MAXORDINAL).

(** "Now minus a lifetime" as plain arithmetic on instants. *)
Definition minus (now : datetime) (lifetime : timedelta) : datetime :=
  mk_datetime (dt_microseconds now - td_microseconds lifetime).

(** The lifetime an override [n] stands for, in the words of the
    specification: years are 52 weeks, months are 4 weeks, days and hours
    are taken as they are. *)
Definition override_lifetime (granularity : string) (n : Z) : timedelta :=
  if (granularity =? "years")%string then timedelta_weeks (n * 52)
  else if (granularity =? "months")%string then timedelta_weeks (n * 4)
  else if (granularity =? "days")%string then timedelta_days n
  else timedelta_hours n.

Definition granularities : list string := ["years"; "months"; "days"; "hours"].

(** The three kinds of command a pass over a volume hands to [zfs]. *)
Definition list_snapshots_command (vdev : string) (recursive : bool) : string :=
  "list -H -t snapshot " ++ (if recursive then " -r" else "") ++ " -o name " ++ vdev.

Definition destroy_command (snapshot : string) : string := "destroy " ++ snapshot.

Definition create_command (vdev stamp : string) : string :=
  "snapshot " ++ vdev ++ "@" ++ stamp.

(** [str.startswith]. *)
Fixpoint starts_with (p s : string) : bool :=
  match p with
  | "" => true
  | String a p' =>
      match s with
      | String b s' => (a =? b)%char && starts_with p' s'
      | "" => false
      end
  end.



(** Descending order on names. *)
Definition descending (l : list string) : Prop :=
  Sorted (fun a b => (b <=? a)%string = true) l.

(** Every character of a string passes a test. *)
Fixpoint all_chars (p : ascii -> bool) (s : string) : bool :=
  match s with
  | "" => true
  | String c s' => p c && all_chars p s'
  end.

(** A name without white space, a line without a line boundary, and a text
    of white space only. *)
Definition word (s : string) : bool :=
  negb (is_empty s) && all_chars (fun c => negb (isspace c)) s.

Definition one_line (s : string) : bool :=
  all_chars (fun c => negb (is_linebreak c)) s.

Definition blank (s : string) : bool := all_chars isspace s.

(** The decimal numeral of a positive number, as [str] prints it. *)
Definition numeral (p : positive) : string :=
  NilEmpty.string_of_uint (Pos.to_uint p).

(** Text the reference functions take as it stands: plain characters, and
    no [%]. *)
Definition literal (s : string) : bool :=
  all_chars (fun c => Reference.plain c && negb (c =? "%")%char) s.

(** A time cut down to the granularity of index [i] of the table: what the
    composite format of [i] keeps of it, the rest at its start. *)
Definition truncate (i : nat) (t : struct_time) : struct_time :=
  build_struct_time (tm_year t)
    (if Nat.leb 1 i then tm_mon t else 1)
    (if Nat.leb 2 i then tm_mday t else 1)
    (if Nat.leb 3 i then tm_hour t else 0) 0 0 (-1).

(** The two commands that list datasets. *)
Definition list_vdevs_command : string := "list -H -t filesystem,volume -o name".

Definition descendants_command (vdev : string) : string :=
  "list -H -o name -r " ++ vdev.

(** A command that destroys a snapshot. *)
Definition is_destroy (command : string) : bool := starts_with "destroy " command.

(** ** A sample world for the examples *)

Module Sample.

Definition NL : string := String "010"%char "".

(** Lines as zfs(8) prints them. *)
Definition unlines (l : list string) : string :=
  String.concat "" (map (fun line => line ++ NL) l).

(** The clock at import: 2026-11-06 12:30:15.25. *)
Definition NOW : datetime := datetime_of 2026 11 6 12 30 15 250000.

(** A pool with the datasets [tank] and [tank/home], four snapshots of
    [tank], and a volume [v] with three dated snapshots. *)
Definition zfs_tool (history : trace) (arg_str : string) : result string :=
  Return
    (if (arg_str =? "list -H -t filesystem,volume -o name")%string
     then unlines ["tank"; "tank/home"]
     else if (arg_str =? "list -H -o name -r tank")%string
     then unlines ["tank"; "tank/home"]
     else if (arg_str =? "list -H -t snapshot  -o name tank")%string
     then unlines ["tank@auto-2026.11.06.11H"; "tank@auto-2026.11.04.09H";
                   "tank@before_reboot"; "tank@auto-2026.11.05.10H"]
     else if (arg_str =? "list -H -t snapshot  -o name v")%string
     then unlines ["v@2020.01.01"; "v@2020.06.01"; "v@2019.12.31"]
     else "").

(** The sample pool with one command that fails. *)
Definition failing_on (command : string) (history : trace) (arg_str : string)
  : result string :=
  if (arg_str =? command)%string then Raise CalledProcessError
  else zfs_tool history arg_str.

(** A system without any dataset. *)
Definition empty_pool (history : trace) (arg_str : string) : result string :=
  Return "".

(** A tool with one answer to every command, as a mock with a return
    value. *)
Definition answering (out : string) (history : trace) (arg_str : string)
  : result string :=
  Return out.

(** The datasets of the tests of [compute_vdevs]. *)
Definition bogus_pool (history : trace) (arg_str : string) : result string :=
  Return
    (if (arg_str =? "list -H -t filesystem,volume -o name")%string
     then unlines ["bogus-vdev"; "bogus-vdev/nested"; "another/bogus/vdev"]
     else if (arg_str =? "list -H -o name -r bogus-vdev")%string
     then unlines ["bogus-vdev"; "bogus-vdev/nested"]
     else if (arg_str =? "list -H -o name -r another/bogus/vdev")%string
     then unlines ["another/bogus/vdev"]
     else "").

(** The tool fails on every command. *)
Definition broken_tool (history : trace) (arg_str : string) : result string :=
  Raise CalledProcessError.

Definition years : SnapshotPolicy :=
  mk_SnapshotPolicy "years" (timedelta_weeks (2 * WEEKS_IN_A_YEAR)) "Y".

Definition hours : SnapshotPolicy :=
  mk_SnapshotPolicy "hours" (timedelta_days 1) "H".

(** The command line without any option, and with two volumes named. *)
Definition no_options : Args.Namespace :=
  Args.mk_Namespace None 3 "auto" false [].

Definition two_volumes : Args.Namespace :=
  Args.mk_Namespace None 3 "auto" false ["a"; "b"].

End Sample.

(** ** The program *)

Section Program.

#[local] Set Default Proof Using "Type".

(** What [zfs(arg_str)] gives back, or raises, after the earlier commands
    of the run. *)
Variable zfs_tool : trace -> string -> result string.

(** [time.strptime(string, format)] and [time.strftime(format, t)]. *)
Variable strptime : string -> string -> result struct_time.
Variable strftime : string -> struct_time -> result string.

(** The module constant [NOW], read from the clock once, at import; where a
    fact needs it, [NOW] is a reading of the clock. *)
Variable NOW : datetime.
Hypothesis NOW_clock_reading : clock_reading NOW = true.

(** *** [zfs_snapshot.py] *)

(** Run a zfs subcommand. *)
Definition zfs (arg_str : string) : M string :=
  fun tr => (zfs_tool tr arg_str, (tr ++ [arg_str])%list).

(** Create a snapshot for a vdev with a given date format. *)
Definition create_snapshot (vdev date_format : string) : M unit :=
  (let snap_name := snapshot_name vdev date_format in
   _ <- zfs ("snapshot " ++ snap_name) ;; ret tt)%M.

(** Destroy a snapshot. *)
Definition destroy_snapshot (snapshot : string) : M unit :=
  (_ <- zfs ("destroy " ++ snapshot) ;; ret tt)%M.

(** Return all vdevs, or raise [VdevNotFoundError]. *)
Definition list_vdevs : M (list string) :=
  (out <- zfs "list -H -t filesystem,volume -o name" ;;
   let vdevs := split out in
   if is_nil vdevs then raise VdevNotFoundError else ret vdevs)%M.

(** Get the list of ZFS snapshots for a given vdev. *)
Definition list_snapshots (vdev : string) (recursive : bool)
  : M (list string) :=
  (let recursive_flag := if recursive then " -r" else "" in
   out <- zfs ("list -H -t snapshot " ++ recursive_flag ++ " -o name " ++ vdev) ;;
   ret (splitlines out))%M.

(** Determine if a snapshot should be destroyed: unmarshall the date of the
    name and compare it with the cutoff. *)
Definition is_destroyable_snapshot (vdev : string) (cutoff : struct_time)
    (date_format snapshot : string) : result bool :=
  let snapshot_formatted := snapshot_name vdev date_format in
  match strptime snapshot snapshot_formatted with
  | Return snapshot_time => Return (struct_time_ltb snapshot_time cutoff)
  | Raise ValueError => Return false
  | Raise e => Raise e
  end.

(** Execute the snapshot policy on a vdev: the expired snapshots are
    destroyed, the new one is created afterwards. *)
Definition execute_snapshot_policy (vdev : string) (now cutoff : struct_time)
    (date_format : string) (recursive : bool) : M unit :=
  (snapshots <- list_snapshots vdev recursive ;;
   expired_snapshots <-
     lift (filter_result
             (is_destroyable_snapshot vdev cutoff date_format) snapshots) ;;
   for_each (sorted_reverse expired_snapshots) destroy_snapshot ;;
   stamp <- lift (strftime date_format now) ;;
   create_snapshot vdev stamp)%M.

(** *** [__main__.py] *)

(** Compute the expiration time for a given policy. *)
Definition compute_cutoff (policy : SnapshotPolicy)
    (lifetime_override : option Z) : result datetime :=
  (lifetime <-
     match truthy lifetime_override with
     | Some lifetime_override =>
         let policy_name := name policy in
         let '(policy_name, lifetime_override) :=
           if (policy_name =? "years")%string
           then ("weeks", lifetime_override * WEEKS_IN_A_YEAR)
           else if (policy_name =? "months")%string
           then ("weeks", lifetime_override * WEEKS_IN_A_MONTH)
           else (policy_name, lifetime_override) in
         new_timedelta policy_name lifetime_override
     | None => Return (lifetime policy)
     end ;;
   datetime_sub NOW lifetime)%result.

(** The loop of [compute_vdevs], which extends [target_vdevs] with the
    descendants of each vdev in turn. *)
Fixpoint extend_recursively (vdevs target_vdevs : list string)
  : M (list string) :=
  match vdevs with
  | [] => ret target_vdevs
  | vdev :: vdevs' =>
      (out <- zfs ("list -H -o name -r " ++ vdev) ;;
       extend_recursively vdevs' (target_vdevs ++ splitlines out)%list)%M
  end.

(** Compute a full ZFS vdev list from input vdevs. *)
Definition compute_vdevs (vdevs : list string) (recursive : bool)
  : M (list string) :=
  if recursive && negb (is_nil vdevs) then extend_recursively vdevs []
  else if is_nil vdevs then list_vdevs else ret vdevs.

(** Validate --vdev: the vdev exist(ed) at the time the script was
    executed. *)
Definition vdev_type (optarg : string) : trace -> type_check string * trace :=
  fun tr =>
    match list_vdevs tr with
    | (Return all_vdevs, tr') =>
        let value := optarg in
        (if contains all_vdevs value then Converted value
         else Refused ("Virtual device specified, '" ++ value
                       ++ "', does not exist"),
         tr')
    | (Raise e, tr') => (Failed e, tr')
    end.

(** [main] after [parse_args]: the arguments are the parsed ones, and what
    the validation of [--vdev] asked the tool is part of the commands the
    run starts from. *)
Definition main (args : Args.Namespace) : M Z :=
  (date_format <- lift (date_format_of (Args.snapshot_period args)) ;;
   snapshot_category <-
     lift (getitem SNAPSHOT_CATEGORIES (Args.snapshot_period args)) ;;
   let snapshot_suffix := date_format_qualifier snapshot_category in
   let snapshot_name_format :=
     Args.snapshot_prefix args ++ "-" ++ date_format ++ snapshot_suffix in
   snapshot_cutoff <-
     lift (compute_cutoff snapshot_category (Args.lifetime args)) ;;
   vdevs <- compute_vdevs (Args.vdevs args) (Args.recursive args) ;;
   for_each (sorted_reverse vdevs)
     (fun vdev =>
        execute_snapshot_policy vdev (timetuple NOW)
          (timetuple snapshot_cutoff) snapshot_name_format
          (Args.recursive args)) ;;
   ret 0)%M.


(** *** Notions the specification is stated with, continued *)



(** The format [main] hands to the executor, for a category of the
    table: prefix, dash, composite date format, qualifier. *)
Definition snapshot_name_format (snapshot_prefix : string)
    (snapshot_period : nat) (category : SnapshotPolicy) : string :=
  snapshot_prefix ++ "-" ++ composite_format snapshot_period
  ++ date_format_qualifier category.

(** A destroy the pass over [vdev] may issue after the commands [history]:
    the snapshot is a line of the listing taken then, and the classifier
    returns [True] on it. *)
Definition destroyable_in (vdev : string) (cutoff : struct_time)
    (date_format : string) (recursive : bool) (history : trace)
    (snapshot : string) : Prop :=
  exists listing : string,
    zfs_tool history (list_snapshots_command vdev recursive) = Return listing
    /\ In snapshot (splitlines listing)
    /\ is_destroyable_snapshot vdev cutoff date_format snapshot = Return true.

(** The tool answers every command. *)
Definition tool_answers : Prop :=
  forall (history : trace) (arg_str : string),
    exists out : string, zfs_tool history arg_str = Return out.


(** Case analysis on a month, and the month tables. *)
Ltac month_cases m :=
  let H := fresh "Hm" in
  assert (H : m = 1 \/ m = 2 \/ m = 3 \/ m = 4 \/ m = 5 \/ m = 6 \/ m = 7
              \/ m = 8 \/ m = 9 \/ m = 10 \/ m = 11 \/ m = 12) by lia;
  repeat (destruct H as [H | H]; [subst m |]); [.. | subst m].

Ltac month_tables :=
  cbv [Calendar.table Calendar.DAYS_IN_MONTH Calendar.DAYS_BEFORE_MONTH nth
       Z.to_nat Pos.to_nat Pos.iter_op Nat.add Z.eqb Z.ltb Z.compare
       Pos.eqb Pos.compare Pos.compare_cont andb] in *.

(** *** The calendar: ordinals follow the order of dates *)

Lemma days_before_year_succ (y : Z) :
  Calendar.days_before_year (y + 1)
  = Calendar.days_before_year y + (if Calendar.is_leap y then 366 else 365).
Proof.
  unfold Calendar.days_before_year, Calendar.is_leap.
  replace (y + 1 - 1) with y by lia.
  destruct (Z.eqb_spec (y mod 4) 0) as [H4 | H4];
    destruct (Z.eqb_spec (y mod 100) 0) as [H100 | H100];
    destruct (Z.eqb_spec (y mod 400) 0) as [H400 | H400];
    cbn [andb orb negb];
    Z.div_mod_to_equations; lia.
Qed.

Lemma days_before_year_le (y1 y2 : Z) :
  y1 <= y2 -> Calendar.days_before_year y1 <= Calendar.days_before_year y2.
Proof.
  intros Hle.
  replace y2 with (y1 + Z.of_nat (Z.to_nat (y2 - y1))) by lia.
  induction (Z.to_nat (y2 - y1)) as [| n IH].
  - replace (y1 + Z.of_nat 0) with y1 by lia. lia.
  - replace (y1 + Z.of_nat (S n)) with (y1 + Z.of_nat n + 1) by lia.
    rewrite days_before_year_succ.
    destruct (Calendar.is_leap (y1 + Z.of_nat n)); lia.
Qed.

Lemma day_of_year_bounds (y m d : Z) :
  1 <= m <= 12 -> 1 <= d <= Calendar.days_in_month y m ->
  1 <= Calendar.days_before_month y m + d
    <= (if Calendar.is_leap y then 366 else 365).
Proof.
  intros Hm Hd. unfold Calendar.days_in_month, Calendar.days_before_month in *.
  destruct (Calendar.is_leap y); month_cases m; month_tables; lia.
Qed.

Lemma day_of_year_lt (y m1 d1 m2 d2 : Z) :
  1 <= m1 <= 12 -> 1 <= m2 <= 12 ->
  1 <= d1 <= Calendar.days_in_month y m1 -> 1 <= d2 ->
  m1 < m2 ->
  Calendar.days_before_month y m1 + d1 < Calendar.days_before_month y m2 + d2.
Proof.
  intros Hm1 Hm2 Hd1 Hd2 Hlt.
  unfold Calendar.days_in_month, Calendar.days_before_month in *.
  destruct (Calendar.is_leap y); month_cases m1; month_cases m2;
    month_tables; lia.
Qed.

Lemma ymd2ord_lt_year (y1 m1 d1 y2 m2 d2 : Z) :
  1 <= m1 <= 12 -> 1 <= d1 <= Calendar.days_in_month y1 m1 ->
  1 <= m2 <= 12 -> 1 <= d2 <= Calendar.days_in_month y2 m2 ->
  y1 < y2 ->
  Calendar.ymd2ord y1 m1 d1 < Calendar.ymd2ord y2 m2 d2.
Proof.
  intros Hm1 Hd1 Hm2 Hd2 Hlt. unfold Calendar.ymd2ord.
  pose proof (day_of_year_bounds y1 m1 d1 Hm1 Hd1) as B1.
  pose proof (day_of_year_bounds y2 m2 d2 Hm2 Hd2) as B2.
  pose proof (days_before_year_succ y1) as S1.
  pose proof (days_before_year_le (y1 + 1) y2 ltac:(lia)) as L.
  destruct (Calendar.is_leap y1); lia.
Qed.

Lemma ymd2ord_lex (y1 m1 d1 y2 m2 d2 : Z) :
  1 <= m1 <= 12 -> 1 <= d1 <= Calendar.days_in_month y1 m1 ->
  1 <= m2 <= 12 -> 1 <= d2 <= Calendar.days_in_month y2 m2 ->
  (y1 < y2 -> Calendar.ymd2ord y1 m1 d1 < Calendar.ymd2ord y2 m2 d2)
  /\ (y1 = y2 -> m1 < m2 ->
      Calendar.ymd2ord y1 m1 d1 < Calendar.ymd2ord y2 m2 d2)
  /\ (y1 = y2 -> m1 = m2 ->
      Calendar.ymd2ord y1 m1 d1 - Calendar.ymd2ord y2 m2 d2 = d1 - d2).
Proof.
  intros Hm1 Hd1 Hm2 Hd2. repeat split.
  - now apply ymd2ord_lt_year.
  - intros <- Hlt. unfold Calendar.ymd2ord.
    pose proof (day_of_year_lt y1 m1 d1 m2 d2 Hm1 Hm2 Hd1 ltac:(lia) Hlt).
    lia.
  - intros <- <-. unfold Calendar.ymd2ord. lia.
Qed.

(** *** The calendar: dates of ordinals *)

Lemma month_and_day_table :
  forallb
    (fun n =>
       forallb
         (fun leapyear =>
            let '(m, d) := Calendar.month_and_day leapyear n in
            (1 <=? m) && (m <=? 12) && (1 <=? d)
            && (d <=? (if (m =? 2) && leapyear then 29
                       else Calendar.table Calendar.DAYS_IN_MONTH m))
            && (Calendar.table Calendar.DAYS_BEFORE_MONTH m
                + (if (2 <? m) && leapyear then 1 else 0) + d =? n + 1))
         [true; false])
    (map Z.of_nat (seq 0 365)) = true.
Proof. vm_compute. reflexivity. Qed.

Lemma month_and_day_spec (leapyear : bool) (n : Z) :
  0 <= n <= 364 ->
  let '(m, d) := Calendar.month_and_day leapyear n in
  1 <= m <= 12
  /\ 1 <= d <= (if (m =? 2) && leapyear then 29
                else Calendar.table Calendar.DAYS_IN_MONTH m)
  /\ Calendar.table Calendar.DAYS_BEFORE_MONTH m
     + (if (2 <? m) && leapyear then 1 else 0) + d = n + 1.
Proof.
  intros Hn.
  pose proof month_and_day_table as T.
  rewrite forallb_forall in T.
  specialize (T n).
  assert (Hin : In n (map Z.of_nat (seq 0 365))).
  { apply in_map_iff. exists (Z.to_nat n). split; [lia |].
    apply in_seq. lia. }
  specialize (T Hin). rewrite forallb_forall in T.
  assert (HL : In leapyear [true; false]) by (destruct leapyear; cbn; auto).
  specialize (T leapyear HL).
  destruct (Calendar.month_and_day leapyear n) as [m d].
  rewrite !andb_true_iff, !Z.leb_le, Z.eqb_eq in T. lia.
Qed.

Lemma is_leap_of_cycles (q n100 n4 n1 : Z) :
  0 <= n100 <= 3 -> 0 <= n4 <= 24 -> 0 <= n1 <= 3 ->
  Calendar.is_leap (q * 400 + 1 + n100 * 100 + n4 * 4 + n1)
  = (n1 =? 3) && (negb (n4 =? 24) || (n100 =? 3)).
Proof.
  intros H100 H4 H1. unfold Calendar.is_leap.
  set (y := q * 400 + 1 + n100 * 100 + n4 * 4 + n1).
  destruct (Z.eqb_spec (y mod 4) 0) as [E4 | E4];
    destruct (Z.eqb_spec (y mod 100) 0) as [E100 | E100];
    destruct (Z.eqb_spec (y mod 400) 0) as [E400 | E400];
    destruct (Z.eqb_spec n1 3) as [F1 | F1];
    destruct (Z.eqb_spec n4 24) as [F4 | F4];
    destruct (Z.eqb_spec n100 3) as [F100 | F100];
    cbn [andb orb negb]; try reflexivity; exfalso; subst y;
    Z.div_mod_to_equations; lia.
Qed.

Lemma days_before_year_of_cycles (q n100 n4 n1 : Z) :
  0 <= n100 <= 3 -> 0 <= n4 <= 24 -> 0 <= n1 <= 3 ->
  Calendar.days_before_year (q * 400 + 1 + n100 * 100 + n4 * 4 + n1)
  = q * Calendar.DI400Y + n100 * Calendar.DI100Y + n4 * Calendar.DI4Y + n1 * 365.
Proof.
  intros H100 H4 H1. unfold Calendar.days_before_year, Calendar.DI400Y,
    Calendar.DI100Y, Calendar.DI4Y.
  Z.div_mod_to_equations. lia.
Qed.

Lemma ord2ymd_spec (n : Z) :
  let '(y, m, d) := Calendar.ord2ymd n in
  1 <= m <= 12
  /\ 1 <= d <= Calendar.days_in_month y m
  /\ Calendar.ymd2ord y m d = n.
Proof.
  unfold Calendar.ord2ymd.
  remember (n - 1) as n0 eqn:En0.
  set (q := n0 / Calendar.DI400Y).
  set (r := n0 mod Calendar.DI400Y).
  set (n100 := r / Calendar.DI100Y).
  set (r2 := r mod Calendar.DI100Y).
  set (n4 := r2 / Calendar.DI4Y).
  set (r3 := r2 mod Calendar.DI4Y).
  set (n1 := r3 / 365).
  set (r4 := r3 mod 365).
  assert (E0 : n0 = Calendar.DI400Y * q + r /\ 0 <= r < Calendar.DI400Y).
  { subst q r. split; [apply Z.div_mod | apply Z.mod_pos_bound];
      unfold Calendar.DI400Y; lia. }
  assert (E1 : r = Calendar.DI100Y * n100 + r2 /\ 0 <= r2 < Calendar.DI100Y).
  { subst n100 r2. split; [apply Z.div_mod | apply Z.mod_pos_bound];
      unfold Calendar.DI100Y; lia. }
  assert (E2 : r2 = Calendar.DI4Y * n4 + r3 /\ 0 <= r3 < Calendar.DI4Y).
  { subst n4 r3. split; [apply Z.div_mod | apply Z.mod_pos_bound];
      unfold Calendar.DI4Y; lia. }
  assert (E3 : r3 = 365 * n1 + r4 /\ 0 <= r4 < 365).
  { subst n1 r4. split; [apply Z.div_mod | apply Z.mod_pos_bound]; lia. }
  clearbody q r n100 r2 n4 r3 n1 r4.
  unfold Calendar.DI400Y, Calendar.DI100Y, Calendar.DI4Y in E0, E1, E2.
  destruct E0 as [E0 B0], E1 as [E1 B1], E2 as [E2 B2], E3 as [E3 B3].
  assert (H100 : 0 <= n100 <= 4) by lia.
  assert (H4 : 0 <= n4 <= 24) by lia.
  assert (H1 : 0 <= n1 <= 4) by lia.
  destruct (Z.eqb_spec n1 4) as [F1 | F1]; cbn [orb].
  - (* December 31st at the end of a four-year cycle *)
    assert (H100' : 0 <= n100 <= 3) by lia.
    assert (H4' : 0 <= n4 <= 23) by lia.
    replace (q * 400 + 1 + n100 * 100 + n4 * 4 + n1 - 1)
      with (q * 400 + 1 + n100 * 100 + n4 * 4 + 3) by lia.
    unfold Calendar.ymd2ord, Calendar.days_in_month, Calendar.days_before_month.
    rewrite is_leap_of_cycles, days_before_year_of_cycles by lia.
    destruct (Z.eqb_spec n4 24) as [F4 | F4]; [lia |].
    unfold Calendar.DI400Y, Calendar.DI100Y, Calendar.DI4Y.
    change (Calendar.table Calendar.DAYS_IN_MONTH 12) with 31.
    change (Calendar.table Calendar.DAYS_BEFORE_MONTH 12) with 334.
    cbn [Z.eqb Z.ltb Z.compare Pos.compare Pos.compare_cont Pos.eqb andb orb negb]. lia.
  - destruct (Z.eqb_spec n100 4) as [F100 | F100].
    + (* December 31st at the end of a 400-year cycle *)
      assert (n4 = 0 /\ n1 = 0 /\ r4 = 0) as (-> & -> & ->) by lia.
      subst n100.
      replace (q * 400 + 1 + 4 * 100 + 0 * 4 + 0 - 1)
        with ((q + 1) * 400 + 1 + 0 * 100 + 0 * 4 + 0 - 1) by lia.
      unfold Calendar.ymd2ord, Calendar.days_in_month,
        Calendar.days_before_month.
      assert (L : Calendar.is_leap ((q + 1) * 400 + 1 + 0 * 100 + 0 * 4 + 0 - 1)
                  = true).
      { unfold Calendar.is_leap.
        replace ((q + 1) * 400 + 1 + 0 * 100 + 0 * 4 + 0 - 1)
          with ((q + 1) * 400) by lia.
        destruct (Z.eqb_spec (((q + 1) * 400) mod 4) 0);
          destruct (Z.eqb_spec (((q + 1) * 400) mod 100) 0);
          destruct (Z.eqb_spec (((q + 1) * 400) mod 400) 0);
          cbn [andb orb negb]; try reflexivity; exfalso;
          Z.div_mod_to_equations; lia. }
      rewrite L.
      pose proof (days_before_year_succ
                    ((q + 1) * 400 + 1 + 0 * 100 + 0 * 4 + 0 - 1)) as S.
      rewrite L in S.
      replace ((q + 1) * 400 + 1 + 0 * 100 + 0 * 4 + 0 - 1 + 1)
        with ((q + 1) * 400 + 1 + 0 * 100 + 0 * 4 + 0) in S by lia.
      rewrite days_before_year_of_cycles in S by lia.
      unfold Calendar.DI400Y, Calendar.DI100Y, Calendar.DI4Y in S.
      change (Calendar.table Calendar.DAYS_IN_MONTH 12) with 31.
      change (Calendar.table Calendar.DAYS_BEFORE_MONTH 12) with 334.
      cbn [Z.eqb Z.ltb Z.compare Pos.compare Pos.compare_cont Pos.eqb andb orb negb]. lia.
    + cbn [orb].
      assert (H100' : 0 <= n100 <= 3) by lia.
      assert (H1' : 0 <= n1 <= 3) by lia.
      pose proof (month_and_day_spec
                    ((n1 =? 3) && (negb (n4 =? 24) || (n100 =? 3))) r4
                    ltac:(lia)) as MD.
      destruct (Calendar.month_and_day
                  ((n1 =? 3) && (negb (n4 =? 24) || (n100 =? 3))) r4)
        as [m d].
      destruct MD as (Hm & Hd & Hsum).
      unfold Calendar.ymd2ord, Calendar.days_in_month,
        Calendar.days_before_month.
      rewrite is_leap_of_cycles, days_before_year_of_cycles by lia.
      unfold Calendar.DI400Y, Calendar.DI100Y, Calendar.DI4Y.
      repeat split; lia.
Qed.

(** *** Tuples of a [struct_time] *)

Lemma well_formed_spec (t : struct_time) :
  well_formed t = true ->
  (1 <= tm_mon t <= 12)
  /\ (1 <= tm_mday t <= Calendar.days_in_month (tm_year t) (tm_mon t))
  /\ (0 <= tm_hour t < 24) /\ (0 <= tm_min t < 60) /\ (0 <= tm_sec t < 60)
  /\ tm_wday t
     = (Calendar.ymd2ord (tm_year t) (tm_mon t) (tm_mday t) + 6) mod 7
  /\ tm_yday t = Calendar.days_before_month (tm_year t) (tm_mon t) + tm_mday t
  /\ tm_isdst t = -1.
Proof.
  unfold well_formed. rewrite !andb_true_iff.
  rewrite !Z.leb_le, !Z.ltb_lt, !Z.eqb_eq. tauto.
Qed.

Lemma tuple_ltb_irrefl (a : list Z) : tuple_ltb a a = false.
Proof.
  induction a as [| x a IH]; [reflexivity |].
  cbn. now rewrite Z.eqb_refl.
Qed.

(** On well-formed values the order of the tuples is the order of the
    instants. *)
Lemma struct_time_ltb_instant (t c : struct_time) :
  well_formed t = true -> well_formed c = true ->
  (struct_time_ltb t c = true <-> instant t < instant c).
Proof.
  intros Wt Wc.
  apply well_formed_spec in Wt, Wc.
  destruct t as [y1 m1 d1 H1 M1 S1 w1 j1 i1].
  destruct c as [y2 m2 d2 H2 M2 S2 w2 j2 i2].
  cbn [tm_year tm_mon tm_mday tm_hour tm_min tm_sec tm_wday tm_yday tm_isdst]
    in Wt, Wc.
  destruct Wt as (Hm1 & Hd1 & Hh1 & Hmin1 & Hs1 & Hw1 & Hj1 & Hi1).
  destruct Wc as (Hm2 & Hd2 & Hh2 & Hmin2 & Hs2 & Hw2 & Hj2 & Hi2).
  destruct (ymd2ord_lex y1 m1 d1 y2 m2 d2 Hm1 Hd1 Hm2 Hd2) as (A1 & A2 & A3).
  destruct (ymd2ord_lex y2 m2 d2 y1 m1 d1 Hm2 Hd2 Hm1 Hd1) as (B1 & B2 & B3).
  unfold struct_time_ltb, as_tuple, instant, tuple_ltb.
  cbn [tm_year tm_mon tm_mday tm_hour tm_min tm_sec tm_wday tm_yday tm_isdst].
  set (o1 := Calendar.ymd2ord y1 m1 d1) in *.
  set (o2 := Calendar.ymd2ord y2 m2 d2) in *.
  repeat match goal with
         | |- context [?a =? ?b] => destruct (Z.eqb_spec a b)
         end;
    try match goal with
        | |- context [?a <? ?b] => destruct (Z.ltb_spec a b)
        end;
    split; intros; try discriminate; try reflexivity; subst; subst o1 o2;
    try congruence; lia.
Qed.

(** *** [timetuple] gives well-formed values *)

Lemma time_of_day (us : Z) :
  let secs := (us mod US_PER_DAY) / US_PER_SECOND in
  0 <= secs / 3600 < 24
  /\ 0 <= (secs mod 3600) / 60 < 60
  /\ 0 <= secs mod 60 < 60
  /\ ((us / US_PER_DAY * 24 + secs / 3600) * 60 + (secs mod 3600) / 60) * 60
     + secs mod 60 = us / US_PER_SECOND.
Proof.
  unfold US_PER_DAY, US_PER_SECOND. cbv zeta.
  Z.div_mod_to_equations. lia.
Qed.

Lemma timetuple_well_formed (d : datetime) : well_formed (timetuple d) = true.
Proof.
  unfold timetuple.
  pose proof (ord2ymd_spec (toordinal d)) as Hymd.
  destruct (Calendar.ord2ymd (toordinal d)) as [[y m] dd].
  destruct Hymd as (Hm & Hd & _).
  destruct (time_of_day (dt_microseconds d)) as (Hh & Hmin & Hs & _).
  unfold well_formed, build_struct_time.
  cbn [tm_year tm_mon tm_mday tm_hour tm_min tm_sec tm_wday tm_yday tm_isdst].
  rewrite !Z.eqb_refl, !andb_true_r.
  rewrite !andb_true_iff, !Z.leb_le, !Z.ltb_lt. lia.
Qed.

Lemma instant_timetuple (d : datetime) :
  instant (timetuple d) = dt_microseconds d / US_PER_SECOND.
Proof.
  unfold timetuple.
  pose proof (ord2ymd_spec (toordinal d)) as Hymd.
  destruct (Calendar.ord2ymd (toordinal d)) as [[y m] dd].
  destruct Hymd as (_ & _ & Hord).
  destruct (time_of_day (dt_microseconds d)) as (_ & _ & _ & Hsum).
  unfold instant, build_struct_time.
  cbn [tm_year tm_mon tm_mday tm_hour tm_min tm_sec].
  rewrite Hord. unfold toordinal. exact Hsum.
Qed.

(** *** The classifier *)


(** What [time.strptime] raises besides [ValueError] is not caught. *)
Lemma is_destroyable_snapshot_propagates :
  forall vdev cutoff date_format snapshot e,
    strptime snapshot (snapshot_name vdev date_format) = Raise e ->
    e <> ValueError ->
    is_destroyable_snapshot vdev cutoff date_format snapshot = Raise e.
Proof.
  intros vdev cutoff date_format snapshot e Hparse Hne.
  unfold is_destroyable_snapshot. rewrite Hparse.
  destruct e; congruence.
Qed.

Lemma is_destroyable_snapshot_parsed :
  forall vdev cutoff date_format snapshot snapshot_time,
    strptime snapshot (snapshot_name vdev date_format) = Return snapshot_time ->
    is_destroyable_snapshot vdev cutoff date_format snapshot
    = Return (struct_time_ltb snapshot_time cutoff).
Proof.
  intros vdev cutoff date_format snapshot snapshot_time Hparse.
  unfold is_destroyable_snapshot. now rewrite Hparse.
Qed.

(** C2. A snapshot name that parses is expired exactly when the parsed
    instant is strictly earlier than the cutoff: parsed at the cutoff it is
    kept, parsed one second before the cutoff it is expired.  The parsed
    time and the cutoff are well-formed values of [struct_time], so that
    each denotes an instant. *)
Theorem is_destroyable_snapshot_expired_iff_earlier :
  forall (vdev : string) (cutoff : struct_time) (date_format snapshot : string)
         (snapshot_time : struct_time),
    strptime snapshot (vdev ++ "@" ++ date_format) = Return snapshot_time ->
    well_formed snapshot_time = true ->
    well_formed cutoff = true ->
    exists is_expired : bool,
      is_destroyable_snapshot vdev cutoff date_format snapshot
      = Return is_expired
      /\ (is_expired = true <-> instant snapshot_time < instant cutoff)
      /\ (instant snapshot_time = instant cutoff -> is_expired = false)
      /\ (instant snapshot_time = instant cutoff - 1 -> is_expired = true).
Proof.
  intros vdev cutoff date_format snapshot snapshot_time Hparse Wt Wc.
  exists (struct_time_ltb snapshot_time cutoff).
  pose proof (struct_time_ltb_instant snapshot_time cutoff Wt Wc) as Hiff.
  split; [now apply is_destroyable_snapshot_parsed |].
  split; [exact Hiff |]. split.
  - intros Heq. destruct (struct_time_ltb snapshot_time cutoff); [| reflexivity].
    assert (instant snapshot_time < instant cutoff) by now apply Hiff.
    lia.
  - intros Heq. apply Hiff. lia.
Qed.

(** A name that parses to the very tuple of the cutoff is kept, whatever
    the tuple holds. *)
Lemma is_destroyable_snapshot_at_cutoff :
  forall vdev cutoff date_format snapshot,
    strptime snapshot (snapshot_name vdev date_format) = Return cutoff ->
    is_destroyable_snapshot vdev cutoff date_format snapshot = Return false.
Proof.
  intros vdev cutoff date_format snapshot Hparse.
  rewrite (is_destroyable_snapshot_parsed _ _ _ _ _ Hparse).
  unfold struct_time_ltb. now rewrite tuple_ltb_irrefl.
Qed.

(** Against the cutoff [main] passes, the [timetuple] of a [datetime]: a
    parsed name is expired exactly when its instant is before the cutoff,
    counted in whole seconds. *)
Lemma is_destroyable_snapshot_against_datetime :
  forall vdev (cutoff : datetime) date_format snapshot snapshot_time,
    strptime snapshot (snapshot_name vdev date_format) = Return snapshot_time ->
    well_formed snapshot_time = true ->
    exists is_expired : bool,
      is_destroyable_snapshot vdev (timetuple cutoff) date_format snapshot
      = Return is_expired
      /\ (is_expired = true
          <-> instant snapshot_time < dt_microseconds cutoff / US_PER_SECOND).
Proof.
  intros vdev cutoff date_format snapshot snapshot_time Hparse Wt.
  exists (struct_time_ltb snapshot_time (timetuple cutoff)).
  split; [now apply is_destroyable_snapshot_parsed |].
  rewrite <- instant_timetuple.
  apply struct_time_ltb_instant; [assumption | apply timetuple_well_formed].
Qed.

(** *** The date format *)

Lemma date_format_of_in_table (i : nat) :
  (i <= 3)%nat -> date_format_of i = Return (composite_format i).
Proof.
  intros Hi.
  assert (H : i = 0%nat \/ i = 1%nat \/ i = 2%nat \/ i = 3%nat) by lia.
  destruct H as [-> | [-> | [-> | ->]]]; reflexivity.
Qed.



(** *** The cutoff *)

Lemma datetime_sub_in_range (d : datetime) (td : timedelta) :
  datetime_in_range (dt_microseconds d - td_microseconds td) = true ->
  datetime_sub d td = Return (minus d td).
Proof.
  intros H. unfold datetime_sub. now rewrite H.
Qed.

Lemma datetime_sub_out_of_range (d : datetime) (td : timedelta) :
  datetime_in_range (dt_microseconds d - td_microseconds td) = false ->
  datetime_sub d td = Raise OverflowError.
Proof.
  intros H. unfold datetime_sub. now rewrite H.
Qed.

Lemma clock_reading_in_range (d : datetime) :
  clock_reading d = true ->
  EPOCH_ORDINAL - 1 <= toordinal d <= Calendar.MAXORDINAL.
Proof.
  unfold clock_reading. rewrite andb_true_iff, !Z.leb_le. tauto.
Qed.

Lemma datetime_in_range_spec (us : Z) :
  datetime_in_range us = true <-> 0 < us / US_PER_DAY <= Calendar.MAXORDINAL.
Proof.
  unfold datetime_in_range. rewrite andb_true_iff, Z.ltb_lt, Z.leb_le. tauto.
Qed.

(** A lifetime that is not negative and leaves the cutoff in range is
    itself within the range of [timedelta]. *)
Lemma new_timedelta_for_cutoff (kw : string) (u n : Z) :
  keyword_microseconds kw = Some u ->
  0 <= n * u ->
  datetime_in_range (dt_microseconds NOW - n * u) = true ->
  new_timedelta kw n = Return (mk_timedelta (n * u)).
Proof using NOW_clock_reading.
  intros Hkw Hpos Hin. unfold new_timedelta. rewrite Hkw.
  pose proof (clock_reading_in_range NOW NOW_clock_reading) as Hnow.
  apply datetime_in_range_spec in Hin.
  unfold toordinal in Hnow. unfold td_days. cbn [td_microseconds].
  assert (Hb : Z.abs (n * u / US_PER_DAY) <= MAX_DELTA_DAYS).
  { unfold MAX_DELTA_DAYS, Calendar.MAXORDINAL, US_PER_DAY, US_PER_SECOND
      in Hnow, Hin, Hpos |- *.
    clear zfs_tool strptime strftime NOW_clock_reading.
    Z.div_mod_to_equations. lia. }
  apply Z.leb_le in Hb. now rewrite Hb.
Qed.

(** C3, as the code has it.  For a strictly positive override [N] whose
    cutoff is a [datetime], that is, not before 0001-01-01, the cutoff is
    now minus [N] times 52 weeks for "years", now minus [N] times 4 weeks
    for "months", and now minus [N] days or [N] hours for "days" and
    "hours". *)
Theorem compute_cutoff_override :
  forall (policy : SnapshotPolicy) (N : Z),
    In (name policy) granularities ->
    0 < N ->
    datetime_in_range
      (dt_microseconds (minus NOW (override_lifetime (name policy) N))) = true ->
    compute_cutoff policy (Some N)
    = Return (minus NOW (override_lifetime (name policy) N)).
Proof using NOW_clock_reading.
  intros policy N Hname HN Hin.
  unfold compute_cutoff, truthy.
  destruct (Z.eqb_spec N 0) as [-> | _]; [lia |].
  unfold granularities in Hname. cbn [In] in Hname.
  destruct Hname as [E | [E | [E | [E | []]]]]; rewrite <- E in Hin |- *;
    unfold override_lifetime, timedelta_weeks, timedelta_days, timedelta_hours,
      minus, WEEKS_IN_A_YEAR, WEEKS_IN_A_MONTH in Hin |- *;
    cbn [String.eqb Ascii.eqb Bool.eqb td_microseconds dt_microseconds]
      in Hin |- *.
  - rewrite (new_timedelta_for_cutoff "weeks" (7 * US_PER_DAY) (N * 52));
      [| reflexivity | unfold US_PER_DAY, US_PER_SECOND; lia | assumption].
    cbn [rbind]. now apply datetime_sub_in_range.
  - rewrite (new_timedelta_for_cutoff "weeks" (7 * US_PER_DAY) (N * 4));
      [| reflexivity | unfold US_PER_DAY, US_PER_SECOND; lia | assumption].
    cbn [rbind]. now apply datetime_sub_in_range.
  - rewrite (new_timedelta_for_cutoff "days" US_PER_DAY N);
      [| reflexivity | unfold US_PER_DAY, US_PER_SECOND; lia | assumption].
    cbn [rbind]. now apply datetime_sub_in_range.
  - rewrite (new_timedelta_for_cutoff "hours" (3600 * US_PER_SECOND) N);
      [| reflexivity | unfold US_PER_SECOND; lia | assumption].
    cbn [rbind]. now apply datetime_sub_in_range.
Qed.

(** A positive override whose cutoff would leave the range of [datetime]
    makes the calculator raise. *)
Lemma compute_cutoff_override_out_of_range :
  forall (policy : SnapshotPolicy) (N : Z),
    In (name policy) granularities ->
    0 < N ->
    datetime_in_range
      (dt_microseconds (minus NOW (override_lifetime (name policy) N))) = false ->
    compute_cutoff policy (Some N) = Raise OverflowError.
Proof.
  intros policy N Hname HN Hout.
  unfold compute_cutoff, truthy.
  destruct (Z.eqb_spec N 0) as [-> | _]; [lia |].
  unfold granularities in Hname. cbn [In] in Hname.
  destruct Hname as [E | [E | [E | [E | []]]]]; rewrite <- E in Hout |- *;
    unfold override_lifetime, timedelta_weeks, timedelta_days, timedelta_hours,
      minus, WEEKS_IN_A_YEAR, WEEKS_IN_A_MONTH in Hout |- *;
    cbn [String.eqb Ascii.eqb Bool.eqb td_microseconds dt_microseconds]
      in Hout |- *;
    unfold new_timedelta; cbn [keyword_microseconds String.eqb Ascii.eqb Bool.eqb];
    match goal with
    | |- context [if ?b then _ else _] => destruct b
    end; cbn [rbind]; try reflexivity;
    now apply datetime_sub_out_of_range.
Qed.

(** With no override, and with the override 0, the lifetime is the one of
    the table. *)
Lemma compute_cutoff_falsy (policy : SnapshotPolicy) (o : option Z) :
  truthy o = None ->
  compute_cutoff policy o = datetime_sub NOW (lifetime policy).
Proof.
  intros H. unfold compute_cutoff. now rewrite H.
Qed.

Lemma default_cutoff_in_range (policy : SnapshotPolicy) :
  In policy SNAPSHOT_CATEGORIES ->
  datetime_in_range
    (dt_microseconds NOW - td_microseconds (lifetime policy)) = true.
Proof using NOW_clock_reading.
  intros Hin.
  pose proof (clock_reading_in_range NOW NOW_clock_reading) as Hnow.
  apply datetime_in_range_spec. unfold toordinal in Hnow.
  clear zfs_tool strptime strftime NOW_clock_reading.
  unfold SNAPSHOT_CATEGORIES in Hin. cbn [In] in Hin.
  destruct Hin as [<- | [<- | [<- | [<- | []]]]];
    cbn [lifetime td_microseconds timedelta_weeks timedelta_days];
    unfold EPOCH_ORDINAL, Calendar.MAXORDINAL, WEEKS_IN_A_YEAR,
      WEEKS_IN_A_MONTH, US_PER_DAY, US_PER_SECOND in Hnow |- *;
    Z.div_mod_to_equations; lia.
Qed.

(** C4. With no lifetime override the cutoff is exactly now minus the
    default lifetime of the granularity, the default lifetimes being 104
    weeks for years, 52 weeks for months, 4 weeks for days and 1 day for
    hours.  [NOW] is a reading of the clock. *)
Theorem compute_cutoff_default :
  map (fun policy => (name policy, lifetime policy)) SNAPSHOT_CATEGORIES
  = [("years", timedelta_weeks 104); ("months", timedelta_weeks 52);
     ("days", timedelta_weeks 4); ("hours", timedelta_days 1)]
  /\ forall policy : SnapshotPolicy,
      In policy SNAPSHOT_CATEGORIES ->
      compute_cutoff policy None = Return (minus NOW (lifetime policy)).
Proof using NOW_clock_reading.
  split; [reflexivity |].
  intros policy Hin. rewrite compute_cutoff_falsy by reflexivity.
  apply datetime_sub_in_range. now apply default_cutoff_in_range.
Qed.

(** C10. An override of 0 is taken as no override: for every granularity
    the cutoff is now minus the default lifetime, as when the override is
    absent.  [NOW] is a reading of the clock. *)
Theorem compute_cutoff_zero_override :
  forall policy : SnapshotPolicy,
    In policy SNAPSHOT_CATEGORIES ->
    compute_cutoff policy (Some 0) = Return (minus NOW (lifetime policy))
    /\ compute_cutoff policy (Some 0) = compute_cutoff policy None.
Proof using NOW_clock_reading.
  intros policy Hin.
  rewrite !compute_cutoff_falsy by reflexivity. split; [| reflexivity].
  apply datetime_sub_in_range. now apply default_cutoff_in_range.
Qed.

(** *** [sorted(..., reverse=True)] *)

Lemma ltb_false_leb (x y : string) :
  (x <? y)%string = false -> (y <=? x)%string = true.
Proof.
  unfold String.ltb, String.leb. rewrite (String.compare_antisym y x).
  destruct (x ?= y)%string; cbn; congruence.
Qed.

Lemma ltb_true_leb (x y : string) :
  (x <? y)%string = true -> (x <=? y)%string = true.
Proof.
  unfold String.ltb, String.leb. destruct (x ?= y)%string; congruence.
Qed.

Lemma insert_reverse_permutation (x : string) (l : list string) :
  Permutation (insert_reverse x l) (x :: l).
Proof.
  induction l as [| y l IH]; cbn; [reflexivity |].
  destruct (x <? y)%string; [| reflexivity].
  rewrite IH. apply perm_swap.
Qed.

Lemma sorted_reverse_permutation (l : list string) :
  Permutation (sorted_reverse l) l.
Proof.
  induction l as [| x l IH]; cbn; [reflexivity |].
  rewrite insert_reverse_permutation. now constructor.
Qed.

Lemma insert_reverse_descending (x : string) (l : list string) :
  descending l -> descending (insert_reverse x l).
Proof.
  unfold descending. induction l as [| y l IH]; intros Hs; cbn.
  - repeat constructor.
  - destruct (x <? y)%string eqn:E.
    + inversion Hs as [| ? ? Hl Hhd]; subst.
      constructor; [now apply IH |].
      destruct l as [| z l]; cbn.
      * constructor. now apply ltb_true_leb.
      * destruct (x <? z)%string.
        -- inversion Hhd; subst. now constructor.
        -- constructor. now apply ltb_true_leb.
    + constructor; [assumption |]. constructor. now apply ltb_false_leb.
Qed.

Lemma sorted_reverse_descending (l : list string) :
  descending (sorted_reverse l).
Proof.
  induction l as [| x l IH]; cbn.
  - constructor.
  - now apply insert_reverse_descending.
Qed.

Lemma sorted_reverse_In (l : list string) (x : string) :
  In x (sorted_reverse l) <-> In x l.
Proof.
  split; apply Permutation_in;
    [| symmetry]; apply sorted_reverse_permutation.
Qed.

(** *** One pass over a volume *)





(** *** A run *)




Lemma getitem_nth_error {A : Type} (l : list A) (i : nat) (a : A) :
  nth_error l i = Some a -> getitem l i = Return a.
Proof.
  intros H. unfold getitem. now rewrite H.
Qed.


(** *** The order on names is a total order *)

Lemma ascii_compare_refl (a : ascii) : (a ?= a)%char = Eq.
Proof. unfold Ascii.compare. apply N.compare_refl. Qed.

Lemma ascii_compare_lt_trans (a b c : ascii) :
  (a ?= b)%char = Lt -> (b ?= c)%char = Lt -> (a ?= c)%char = Lt.
Proof.
  unfold Ascii.compare. rewrite !N.compare_lt_iff. apply N.lt_trans.
Qed.

Lemma string_leb_trans (a b c : string) :
  (a <=? b)%string = true -> (b <=? c)%string = true ->
  (a <=? c)%string = true.
Proof.
  unfold String.leb. revert b c.
  induction a as [| x a IH]; intros [| y b] [| z c]; cbn; try congruence.
  destruct (x ?= y)%char eqn:Exy; destruct (y ?= z)%char eqn:Eyz;
    try congruence.
  - apply Ascii.compare_eq_iff in Exy, Eyz. subst.
    rewrite ascii_compare_refl. apply IH.
  - apply Ascii.compare_eq_iff in Exy. subst. now rewrite Eyz.
  - apply Ascii.compare_eq_iff in Eyz. subst. now rewrite Exy.
  - now rewrite (ascii_compare_lt_trans x y z).
Qed.

Lemma descending_strongly (l : list string) :
  descending l -> StronglySorted (fun a b => (b <=? a)%string = true) l.
Proof.
  apply Sorted_StronglySorted. intros a b c Hab Hbc.
  exact (string_leb_trans c b a Hbc Hab).
Qed.

(** A list has one descending arrangement, so [sorted_reverse] is what any
    sort gives. *)
Lemma descending_unique (l1 l2 : list string) :
  Permutation l1 l2 -> descending l1 -> descending l2 -> l1 = l2.
Proof.
  intros Hperm H1 H2.
  apply descending_strongly in H1, H2.
  revert l2 Hperm H2.
  induction H1 as [| x l1 Hs1 IH Hx]; intros l2 Hperm H2.
  - now apply Permutation_nil in Hperm.
  - destruct l2 as [| y l2];
      [apply Permutation_sym, Permutation_nil in Hperm; discriminate |].
    inversion H2 as [| ? ? Hs2 Hy]; subst.
    assert (Heq : x = y).
    { assert (Hin1 : In x (y :: l2))
        by (apply (Permutation_in _ Hperm); now left).
      assert (Hin2 : In y (x :: l1))
        by (apply (Permutation_in _ (Permutation_sym Hperm)); now left).
      destruct Hin1 as [-> | Hin1]; [reflexivity |].
      destruct Hin2 as [-> | Hin2]; [reflexivity |].
      rewrite Forall_forall in Hx, Hy.
      apply String.leb_antisym; auto. }
    subst y. f_equal. apply IH; [| assumption].
    now apply Permutation_cons_inv in Hperm.
Qed.

(** *** Creates among the commands *)




(** *** The claims on runs *)





(** *** Words and lines *)

Lemma all_chars_snoc (p : ascii -> bool) (s : string) (c : ascii) :
  all_chars p (snoc s c) = all_chars p s && p c.
Proof.
  unfold snoc. induction s as [| a s IH]; cbn.
  - now rewrite andb_true_r.
  - now rewrite IH, andb_assoc.
Qed.

Lemma is_empty_snoc (s : string) (c : ascii) : is_empty (snoc s c) = false.
Proof. now destruct s. Qed.

Lemma snoc_append (cur : string) (c : ascii) (s : string) :
  (snoc cur c ++ s = cur ++ String c s)%string.
Proof.
  unfold snoc. induction cur as [| a cur IH]; cbn; [reflexivity |].
  now rewrite IH.
Qed.

Lemma append_empty_r (s : string) : (s ++ "")%string = s.
Proof. induction s as [| a s IH]; cbn; [reflexivity | now rewrite IH]. Qed.

Lemma word_spec (s : string) :
  word s = true
  <-> s <> "" /\ all_chars (fun c => negb (isspace c)) s = true.
Proof.
  unfold word. rewrite andb_true_iff. destruct s; cbn [is_empty negb].
  - split; [intros [H _]; discriminate | intros [H _]; congruence].
  - split; intros [_ H]; (split; [congruence || reflexivity | exact H]).
Qed.

(** [split] gives words. *)
Lemma split_from_words (s cur : string) :
  all_chars (fun c => negb (isspace c)) cur = true ->
  Forall (fun v => word v = true) (split_from cur s).
Proof.
  revert cur. induction s as [| c s IH]; intros cur Hcur; cbn [split_from].
  - destruct (is_empty cur) eqn:E; constructor; [| constructor].
    unfold word. now rewrite E, Hcur.
  - destruct (isspace c) eqn:Ec.
    + destruct (is_empty cur) eqn:E; [now apply IH |].
      constructor; [| now apply IH].
      unfold word. now rewrite E, Hcur.
    + apply IH. now rewrite all_chars_snoc, Hcur, Ec.
Qed.

(** [split] gives nothing on a blank text only. *)
Lemma split_from_nil (s cur : string) :
  split_from cur s = [] <-> is_empty cur = true /\ blank s = true.
Proof.
  clear zfs_tool strptime strftime.
  revert cur. induction s as [| c s IH]; intros cur; cbn [split_from].
  - destruct (is_empty cur); cbn; intuition congruence.
  - unfold blank. cbn [all_chars]. fold (blank s).
    destruct (isspace c) eqn:Ec; cbn [andb].
    + destruct (is_empty cur) eqn:E; [apply IH |].
      intuition congruence.
    + rewrite IH, is_empty_snoc. intuition congruence.
Qed.

Lemma split_from_word (w cur rest : string) :
  all_chars (fun c => negb (isspace c)) w = true ->
  split_from cur (w ++ rest) = split_from (cur ++ w) rest.
Proof.
  revert cur. induction w as [| c w IH]; intros cur Hw; cbn [append].
  - now rewrite append_empty_r.
  - cbn [all_chars] in Hw. apply andb_true_iff in Hw. destruct Hw as [Hc Hw].
    cbn [split_from]. apply negb_true_iff in Hc. rewrite Hc.
    rewrite IH by assumption. now rewrite snoc_append.
Qed.

Lemma string_concat_cons (x : string) (l : list string) :
  String.concat "" (x :: l) = (x ++ String.concat "" l)%string.
Proof.
  destruct l; cbn [String.concat]; [now rewrite append_empty_r | reflexivity].
Qed.

Lemma unlines_cons (line : string) (lines : list string) :
  Sample.unlines (line :: lines)
  = (line ++ String "010" (Sample.unlines lines))%string.
Proof.
  unfold Sample.unlines. cbn [map]. rewrite string_concat_cons.
  unfold Sample.NL. induction line as [| a line IH]; cbn; [reflexivity |].
  now rewrite IH.
Qed.

Lemma split_unlines (names : list string) :
  Forall (fun v => word v = true) names ->
  split (Sample.unlines names) = names.
Proof.
  unfold split.
  induction 1 as [| v names Hv _ IH]; [reflexivity |].
  apply word_spec in Hv. destruct Hv as [Hne Hv].
  rewrite unlines_cons, split_from_word by assumption.
  cbn [append split_from]. change (isspace "010"%char) with true. cbv iota.
  destruct v; [congruence |]. cbn [is_empty]. now rewrite IH.
Qed.

Lemma splitlines_from_line (l cur rest : string) :
  one_line l = true ->
  splitlines_from cur (l ++ rest) = splitlines_from (cur ++ l) rest.
Proof.
  revert cur. induction l as [| c l IH]; intros cur Hl; cbn [append].
  - now rewrite append_empty_r.
  - unfold one_line in Hl. cbn [all_chars] in Hl.
    apply andb_true_iff in Hl. destruct Hl as [Hc Hl].
    cbn [splitlines_from]. apply negb_true_iff in Hc. rewrite Hc.
    rewrite IH by assumption. now rewrite snoc_append.
Qed.

Lemma splitlines_from_newline (cur rest : string) :
  splitlines_from cur (String "010" rest) = cur :: splitlines_from "" rest.
Proof.
  cbn [splitlines_from]. change (is_linebreak "010"%char) with true. cbv iota.
  destruct rest; reflexivity.
Qed.

Lemma splitlines_unlines (lines : list string) :
  Forall (fun l => one_line l = true) lines ->
  splitlines (Sample.unlines lines) = lines.
Proof.
  unfold splitlines.
  induction 1 as [| l lines Hl _ IH]; [reflexivity |].
  rewrite unlines_cons, splitlines_from_line by assumption.
  rewrite splitlines_from_newline. cbn [append]. now rewrite IH.
Qed.

(** *** The listings *)

Lemma list_vdevs_run (tr : trace) :
  list_vdevs tr
  = (match zfs_tool tr list_vdevs_command with
     | Return out =>
         if is_nil (split out) then Raise VdevNotFoundError
         else Return (split out)
     | Raise e => Raise e
     end,
     (tr ++ [list_vdevs_command])%list).
Proof.
  unfold list_vdevs, bind, zfs. fold list_vdevs_command.
  destruct (zfs_tool tr list_vdevs_command) as [out | e]; [| reflexivity].
  now destruct (split out).
Qed.

(** X1. The volumes [list_vdevs] returns are words, at least one of them, after
    the one listing of file systems and volumes: no name is empty and none
    holds white space. *)
Theorem list_vdevs_gives_words :
  forall (tr tr' : trace) (vdevs : list string),
    list_vdevs tr = (Return vdevs, tr') ->
    vdevs <> []
    /\ Forall (fun vdev => word vdev = true) vdevs
    /\ tr' = (tr ++ [list_vdevs_command])%list.
Proof.
  intros tr tr' vdevs Hrun. rewrite list_vdevs_run in Hrun.
  destruct (zfs_tool tr list_vdevs_command) as [out | e]; [| discriminate].
  destruct (is_nil (split out)) eqn:E; [discriminate |].
  injection Hrun as <- <-. repeat split.
  - intros Hnil. now rewrite Hnil in E.
  - now apply split_from_words.
Qed.

(** X2. When the tool answers, [list_vdevs] raises [VdevNotFoundError] exactly
    when the answer is blank, white space and nothing else; otherwise it
    returns the words of the answer. *)
Theorem list_vdevs_not_found_iff_blank :
  forall (tr : trace) (out : string),
    zfs_tool tr list_vdevs_command = Return out ->
    (list_vdevs tr
     = (Raise VdevNotFoundError, (tr ++ [list_vdevs_command])%list)
     <-> blank out = true)
    /\ (blank out = false ->
        list_vdevs tr
        = (Return (split out), (tr ++ [list_vdevs_command])%list)).
Proof.
  intros tr out Hout. rewrite list_vdevs_run, Hout.
  pose proof (split_from_nil out "") as Hnil. fold (split out) in Hnil.
  cbn [is_empty] in Hnil.
  destruct (split out) as [| v l] eqn:E; cbn [is_nil].
  - assert (Hb : blank out = true) by now apply Hnil.
    rewrite Hb. split; [split; reflexivity | discriminate].
  - destruct (blank out) eqn:Hb.
    + assert (Hc : v :: l = []) by (apply Hnil; now split). discriminate.
    + split; [| reflexivity]. split; intros H; discriminate.
Qed.

(** X3. Round trip of the volume listing: when the tool prints one name per
    line, the names being words, [list_vdevs] returns these names, in the
    order printed. *)
Theorem list_vdevs_of_lines :
  forall (tr : trace) (names : list string),
    names <> [] ->
    Forall (fun vdev => word vdev = true) names ->
    zfs_tool tr list_vdevs_command = Return (Sample.unlines names) ->
    list_vdevs tr = (Return names, (tr ++ [list_vdevs_command])%list).
Proof.
  intros tr names Hne Hwords Hout.
  rewrite list_vdevs_run, Hout, split_unlines by assumption.
  destruct names; [congruence | reflexivity].
Qed.

(** X4. Round trip of the snapshot listing: when the tool prints one name per
    line, [list_snapshots] returns these names in the order printed, white
    space within a name included; only a line boundary within a name would
    split it. *)
Theorem list_snapshots_of_lines :
  forall (vdev : string) (recursive : bool) (tr : trace) (lines : list string),
    Forall (fun l => one_line l = true) lines ->
    zfs_tool tr (list_snapshots_command vdev recursive)
    = Return (Sample.unlines lines) ->
    list_snapshots vdev recursive tr
    = (Return lines, (tr ++ [list_snapshots_command vdev recursive])%list).
Proof.
  intros vdev recursive tr lines Hlines Hout.
  unfold list_snapshots, bind, zfs, ret.
  fold (list_snapshots_command vdev recursive). rewrite Hout.
  now rewrite splitlines_unlines.
Qed.

(** *** What a pass and a run may destroy *)

Lemma filter_result_sound {A : Type} (p : A -> result bool) (l l' : list A) :
  filter_result p l = Return l' ->
  forall a : A, In a l' -> In a l /\ p a = Return true.
Proof.
  revert l'. induction l as [| x l IH]; intros l' Hl a Hin.
  - cbn in Hl. injection Hl as <-. contradiction.
  - cbn [filter_result] in Hl. unfold rbind in Hl.
    destruct (p x) as [b |] eqn:Ex; [| discriminate].
    destruct (filter_result p l) as [rest |] eqn:El; [| discriminate].
    injection Hl as <-.
    destruct b.
    + destruct Hin as [<- | Hin]; [split; [now left | assumption] |].
      destruct (IH rest eq_refl a Hin). split; [now right | assumption].
    + destruct (IH rest eq_refl a Hin). split; [now right | assumption].
Qed.

Lemma In_firstn {A : Type} (n : nat) (l : list A) (a : A) :
  In a (firstn n l) -> In a l.
Proof.
  intros Hin. rewrite <- (firstn_skipn n l). apply in_or_app. now left.
Qed.

(** The loop over the expired snapshots destroys a first part of them. *)
Lemma for_each_destroy_prefix (l : list string) (tr : trace) :
  exists (n : nat) (r : result unit),
    for_each l destroy_snapshot tr
    = (r, (tr ++ map destroy_command (firstn n l))%list)
    /\ (r = Return tt -> firstn n l = l).
Proof.
  revert tr. induction l as [| s l IH]; intros tr.
  - exists 0%nat, (Return tt). cbn. now rewrite app_nil_r.
  - cbn [for_each]. unfold bind at 1.
    unfold destroy_snapshot at 1, bind, zfs, ret.
    fold (destroy_command s).
    destruct (zfs_tool tr (destroy_command s)) as [out | e].
    + destruct (IH (tr ++ [destroy_command s])%list) as (n & r & Hn & Hall).
      exists (S n), r. cbn [firstn map]. rewrite Hn, <- app_assoc. split.
      * reflexivity.
      * intros Hr. now rewrite (Hall Hr).
    + exists 1%nat, (Raise e). cbn [firstn map]. split; [reflexivity |].
      discriminate.
Qed.

(** The commands of a pass, whatever fails: the listing, destroys the
    classifier allows, and at most one create, which is then the last. *)
Lemma execute_snapshot_policy_shape (vdev : string) (now cutoff : struct_time)
    (date_format : string) (recursive : bool) (tr : trace) :
  exists (destroyed created : list string),
    snd (execute_snapshot_policy vdev now cutoff date_format recursive tr)
    = (tr ++ [list_snapshots_command vdev recursive]
          ++ map destroy_command destroyed ++ created)%list
    /\ (forall snapshot : string,
          In snapshot destroyed ->
          destroyable_in vdev cutoff date_format recursive tr snapshot)
    /\ (created = []
        \/ exists stamp : string,
             strftime date_format now = Return stamp
             /\ created = [create_command vdev stamp]).
Proof.
  unfold execute_snapshot_policy, list_snapshots.
  unfold bind at 1 2. unfold zfs at 1, ret at 1.
  fold (list_snapshots_command vdev recursive).
  destruct (zfs_tool tr (list_snapshots_command vdev recursive))
    as [listing | e] eqn:Hl.
  2: { exists [], []. cbn. split; [reflexivity |]. split; [contradiction | now left]. }
  unfold bind at 1, lift at 1.
  destruct (filter_result (is_destroyable_snapshot vdev cutoff date_format)
              (splitlines listing)) as [expired_snapshots | e] eqn:Hf.
  2: { exists [], []. cbn. split; [reflexivity |]. split; [contradiction | now left]. }
  assert (Hok : forall snapshot n,
             In snapshot (firstn n (sorted_reverse expired_snapshots)) ->
             destroyable_in vdev cutoff date_format recursive tr snapshot).
  { intros snapshot n Hin. apply In_firstn in Hin. apply (proj1 (sorted_reverse_In _ _)) in Hin.
    destruct (filter_result_sound _ _ _ Hf snapshot Hin) as [Hlisted Htrue].
    now exists listing. }
  unfold bind at 1.
  destruct (for_each_destroy_prefix (sorted_reverse expired_snapshots)
              (tr ++ [list_snapshots_command vdev recursive])%list)
    as (n & r & Hn & _).
  rewrite Hn. destruct r as [[] | e].
  2: { exists (firstn n (sorted_reverse expired_snapshots)), [].
       cbn [snd]. rewrite app_nil_r, <- app_assoc.
       split; [reflexivity |]. split; [intros s0 Hs0; exact (Hok s0 n Hs0) | now left]. }
  unfold bind at 1, lift at 1.
  destruct (strftime date_format now) as [stamp | e] eqn:Hs.
  2: { exists (firstn n (sorted_reverse expired_snapshots)), [].
       cbn [snd]. rewrite app_nil_r, <- app_assoc.
       split; [reflexivity |]. split; [intros s0 Hs0; exact (Hok s0 n Hs0) | now left]. }
  exists (firstn n (sorted_reverse expired_snapshots)), [create_command vdev stamp].
  split; [| split; [intros s0 Hs0; exact (Hok s0 n Hs0) | right; now exists stamp]].
  unfold create_snapshot, bind, zfs, ret, snapshot_name, SNAPSHOT_SEPARATOR.
  fold (create_command vdev stamp).
  match goal with
  | |- context [zfs_tool ?h ?c] => destruct (zfs_tool h c)
  end; cbn [snd]; now rewrite <- !app_assoc.
Qed.

Lemma destroy_command_inj (a b : string) :
  destroy_command a = destroy_command b -> a = b.
Proof. unfold destroy_command. cbn. congruence. Qed.

Lemma In_destroy_commands (snapshot : string) (l : list string) :
  In (destroy_command snapshot) (map destroy_command l) -> In snapshot l.
Proof.
  intros Hin. apply in_map_iff in Hin. destruct Hin as (x & Hx & Hin).
  apply destroy_command_inj in Hx. now subst.
Qed.

(** The destroys among the commands of a pass. *)
Lemma In_destroy_pass (snapshot vdev : string) (recursive : bool)
    (destroyed created : list string) (now : struct_time)
    (date_format : string) :
  (created = []
   \/ exists stamp : string,
        strftime date_format now = Return stamp
        /\ created = [create_command vdev stamp]) ->
  In (destroy_command snapshot)
    ([list_snapshots_command vdev recursive]
       ++ map destroy_command destroyed ++ created)%list ->
  In snapshot destroyed.
Proof.
  intros Hc Hin. cbn [app] in Hin. destruct Hin as [Habs | Hin].
  - unfold list_snapshots_command, destroy_command in Habs. cbn in Habs.
    discriminate.
  - apply in_app_or in Hin. destruct Hin as [Hin | Hin].
    + now apply In_destroy_commands.
    + destruct Hc as [-> | (stamp & _ & ->)]; [contradiction |].
      destruct Hin as [Habs | []].
      unfold create_command, destroy_command in Habs. cbn in Habs.
      discriminate.
Qed.

(** X5. A pass never destroys but a snapshot that its own listing named and
    that the classifier found expired, whatever the tool, the parser and
    the formatter do, and whether the pass fails or not: a destroy among
    the commands after a pass was there before, or is of such a
    snapshot. *)
Theorem execute_snapshot_policy_destroys_only_expired :
  forall (vdev : string) (now cutoff : struct_time) (date_format : string)
         (recursive : bool) (tr : trace) (snapshot : string),
    In (destroy_command snapshot)
      (snd (execute_snapshot_policy vdev now cutoff date_format recursive tr)) ->
    In (destroy_command snapshot) tr
    \/ destroyable_in vdev cutoff date_format recursive tr snapshot.
Proof.
  intros vdev now cutoff date_format recursive tr snapshot Hin.
  destruct (execute_snapshot_policy_shape vdev now cutoff date_format
              recursive tr) as (destroyed & created & Htr & Hok & Hc).
  rewrite Htr in Hin. apply in_app_or in Hin.
  destruct Hin as [Hin | Hin]; [now left | right].
  apply Hok. exact (In_destroy_pass _ _ _ _ _ _ _ Hc Hin).
Qed.





(** *** Where a pass and a run stop *)

Lemma filter_result_raises {A : Type} (p : A -> result bool) (l : list A)
    (a : A) (e : exn) :
  In a l -> p a = Raise e ->
  exists (b : A) (e' : exn),
    In b l /\ p b = Raise e' /\ filter_result p l = Raise e'.
Proof.
  induction l as [| x l IH]; intros Hin Ha; [contradiction |].
  cbn [filter_result]. unfold rbind.
  destruct (p x) as [bx | ex] eqn:Ex.
  - destruct Hin as [-> | Hin]; [congruence |].
    destruct (IH Hin Ha) as (b & e' & Hb & Hpb & Hf).
    exists b, e'. rewrite Hf. repeat split; [now right | assumption].
  - exists x, ex. repeat split; [now left | assumption].
Qed.

Lemma is_destroyable_snapshot_raises (vdev : string) (cutoff : struct_time)
    (date_format snapshot : string) (e : exn) :
  is_destroyable_snapshot vdev cutoff date_format snapshot = Raise e
  <-> strptime snapshot (snapshot_name vdev date_format) = Raise e
      /\ e <> ValueError.
Proof.
  unfold is_destroyable_snapshot.
  destruct (strptime snapshot (snapshot_name vdev date_format)) as [t | e'].
  - split; [discriminate | intros [H _]; discriminate].
  - split.
    + intros H. destruct e'; try discriminate; injection H as <-;
        (split; [reflexivity | discriminate]).
    + intros [H Hne]. injection H as ->. destruct e; congruence.
Qed.

(** X7. When the parser raises something else than [ValueError] on a name
    of the listing, the pass destroys nothing and creates nothing: it
    fails, with what the parser raised on a name of the listing, and the
    listing is its only command. *)
Theorem execute_snapshot_policy_classifier_raises :
  forall (vdev : string) (now cutoff : struct_time) (date_format : string)
         (recursive : bool) (tr : trace) (listing snapshot : string) (e : exn),
    zfs_tool tr (list_snapshots_command vdev recursive) = Return listing ->
    In snapshot (splitlines listing) ->
    strptime snapshot (snapshot_name vdev date_format) = Raise e ->
    e <> ValueError ->
    exists (culprit : string) (e' : exn),
      In culprit (splitlines listing)
      /\ strptime culprit (snapshot_name vdev date_format) = Raise e'
      /\ e' <> ValueError
      /\ execute_snapshot_policy vdev now cutoff date_format recursive tr
         = (Raise e', (tr ++ [list_snapshots_command vdev recursive])%list).
Proof.
  intros vdev now cutoff date_format recursive tr listing snapshot e
    Hl Hin Hparse Hne.
  destruct (filter_result_raises
              (is_destroyable_snapshot vdev cutoff date_format)
              (splitlines listing) snapshot e Hin)
    as (culprit & e' & Hc & Hraise & Hf).
  { apply is_destroyable_snapshot_raises. now split. }
  apply is_destroyable_snapshot_raises in Hraise.
  destruct Hraise as [Hp' Hne'].
  exists culprit, e'. repeat split; try assumption.
  unfold execute_snapshot_policy, list_snapshots, bind, zfs, ret, lift.
  fold (list_snapshots_command vdev recursive). now rewrite Hl, Hf.
Qed.

Lemma for_each_destroy_fails (before after : list string) (snapshot : string)
    (e : exn) (tr : trace) :
  (forall (s : string) (history : trace),
      In s before ->
      exists out : string, zfs_tool history (destroy_command s) = Return out) ->
  zfs_tool (tr ++ map destroy_command before)%list (destroy_command snapshot)
  = Raise e ->
  for_each (before ++ snapshot :: after)%list destroy_snapshot tr
  = (Raise e,
     (tr ++ map destroy_command before ++ [destroy_command snapshot])%list).
Proof.
  revert tr. induction before as [| s before IH]; intros tr Hanswers Hfail.
  - cbn [app map] in Hfail |- *. rewrite app_nil_r in Hfail.
    cbn [for_each]. unfold bind at 1.
    unfold destroy_snapshot at 1, bind, zfs, ret.
    fold (destroy_command snapshot). now rewrite Hfail.
  - cbn [app map for_each]. unfold bind at 1.
    unfold destroy_snapshot at 1, bind, zfs, ret.
    fold (destroy_command s).
    destruct (Hanswers s tr (or_introl eq_refl)) as [out Hout]. rewrite Hout.
    rewrite IH.
    + now rewrite <- app_assoc.
    + intros s' history Hs'. apply Hanswers. now right.
    + rewrite <- app_assoc. exact Hfail.
Qed.

(** X8. A destroy that fails ends the pass: the expired snapshots that
    sort before the one that cannot be destroyed are gone, those that sort
    after it are left, nothing is created, and the pass fails with what the
    tool raised. *)
Theorem execute_snapshot_policy_failing_destroy :
  forall (vdev : string) (now cutoff : struct_time) (date_format : string)
         (recursive : bool) (tr : trace) (listing : string)
         (expired_snapshots before after : list string) (snapshot : string)
         (e : exn),
    zfs_tool tr (list_snapshots_command vdev recursive) = Return listing ->
    filter_result (is_destroyable_snapshot vdev cutoff date_format)
      (splitlines listing) = Return expired_snapshots ->
    sorted_reverse expired_snapshots = (before ++ snapshot :: after)%list ->
    (forall (s : string) (history : trace),
        In s before ->
        exists out : string,
          zfs_tool history (destroy_command s) = Return out) ->
    zfs_tool
      (tr ++ [list_snapshots_command vdev recursive]
          ++ map destroy_command before)%list
      (destroy_command snapshot) = Raise e ->
    execute_snapshot_policy vdev now cutoff date_format recursive tr
    = (Raise e,
       (tr ++ [list_snapshots_command vdev recursive]
           ++ map destroy_command before
           ++ [destroy_command snapshot])%list).
Proof.
  intros vdev now cutoff date_format recursive tr listing expired_snapshots
    before after snapshot e Hl Hf Hsorted Hanswers Hfail.
  unfold execute_snapshot_policy, list_snapshots.
  unfold bind at 1 2. unfold zfs at 1, ret at 1.
  fold (list_snapshots_command vdev recursive). rewrite Hl.
  unfold bind at 1, lift at 1. rewrite Hf.
  unfold bind at 1. rewrite Hsorted.
  rewrite (for_each_destroy_fails before after snapshot e); try assumption.
  - now rewrite <- app_assoc.
  - rewrite <- app_assoc. exact Hfail.
Qed.




(** *** The recursive target list *)

Lemma extend_recursively_answers (answer : string -> string)
    (vdevs target_vdevs : list string) (tr : trace) :
  (forall (history : trace) (vdev : string),
      In vdev vdevs ->
      zfs_tool history (descendants_command vdev) = Return (answer vdev)) ->
  extend_recursively vdevs target_vdevs tr
  = (Return (target_vdevs
             ++ flat_map (fun vdev => splitlines (answer vdev)) vdevs)%list,
     (tr ++ map descendants_command vdevs)%list).
Proof.
  revert target_vdevs tr.
  induction vdevs as [| v vdevs IH]; intros target_vdevs tr Hanswers.
  - cbn. now rewrite !app_nil_r.
  - cbn [extend_recursively flat_map map]. unfold bind, zfs.
    fold (descendants_command v).
    rewrite (Hanswers tr v (or_introl eq_refl)).
    rewrite IH by (intros history vdev Hin; apply Hanswers; now right).
    now rewrite <- !app_assoc.
Qed.

(** X11. With the recursive flag, the targets of named volumes are the
    lines the tool prints for each volume and its descendants, volume after
    volume in the order given, one listing per volume: a dataset that two
    of the named volumes reach is a target twice. *)
Theorem compute_vdevs_recursive :
  forall (answer : string -> string) (vdevs : list string) (tr : trace),
    vdevs <> [] ->
    (forall (history : trace) (vdev : string),
        In vdev vdevs ->
        zfs_tool history (descendants_command vdev) = Return (answer vdev)) ->
    compute_vdevs vdevs true tr
    = (Return (flat_map (fun vdev => splitlines (answer vdev)) vdevs),
       (tr ++ map descendants_command vdevs)%list).
Proof.
  intros answer vdevs tr Hne Hanswers. unfold compute_vdevs.
  destruct vdevs as [| v vdevs]; [congruence |]. cbn [is_nil negb andb].
  now rewrite (extend_recursively_answers answer).
Qed.

(** *** The classifier and the cutoff *)

Lemma tuple_ltb_trans (a b c : list Z) :
  tuple_ltb a b = true -> tuple_ltb b c = true -> tuple_ltb a c = true.
Proof.
  revert b c. induction a as [| x a IH]; intros [| y b] [| z c]; cbn;
    try congruence.
  destruct (Z.eqb_spec x y), (Z.eqb_spec y z), (Z.eqb_spec x z);
    rewrite ?Z.ltb_lt; try (intros; lia).
  apply IH.
Qed.

Lemma tuple_ltb_total (a b : list Z) :
  tuple_ltb a b = false -> tuple_ltb b a = false -> a = b.
Proof.
  revert b. induction a as [| x a IH]; intros [| y b]; cbn; try congruence.
  rewrite (Z.eqb_sym y x).
  destruct (Z.eqb_spec x y) as [-> | Hxy].
  - intros H1 H2. f_equal. now apply IH.
  - rewrite !Z.ltb_ge. lia.
Qed.

(** What is before a cutoff is before every later cutoff. *)
Lemma struct_time_ltb_later (t c1 c2 : struct_time) :
  struct_time_ltb t c1 = true ->
  struct_time_ltb c2 c1 = false ->
  struct_time_ltb t c2 = true.
Proof.
  unfold struct_time_ltb. intros Ht Hc.
  destruct (tuple_ltb (as_tuple c1) (as_tuple c2)) eqn:E.
  - exact (tuple_ltb_trans _ _ _ Ht E).
  - now rewrite <- (tuple_ltb_total _ _ E Hc).
Qed.

Lemma timetuple_monotone (c1 c2 : datetime) :
  dt_microseconds c1 <= dt_microseconds c2 ->
  struct_time_ltb (timetuple c2) (timetuple c1) = false.
Proof.
  intros Hle.
  destruct (struct_time_ltb (timetuple c2) (timetuple c1)) eqn:E;
    [| reflexivity].
  apply struct_time_ltb_instant in E; try apply timetuple_well_formed.
  rewrite !instant_timetuple in E.
  assert (dt_microseconds c1 / US_PER_SECOND
          <= dt_microseconds c2 / US_PER_SECOND)
    by (apply Z.div_le_mono; [reflexivity | assumption]).
  lia.
Qed.

(** X12. The classifier is monotone in the cutoff: a snapshot that is
    expired against the time tuple of a cutoff is expired against the time
    tuple of every later cutoff, whatever the parser made of its name. *)
Theorem is_destroyable_snapshot_monotone :
  forall (vdev date_format snapshot : string) (c1 c2 : datetime),
    dt_microseconds c1 <= dt_microseconds c2 ->
    is_destroyable_snapshot vdev (timetuple c1) date_format snapshot
    = Return true ->
    is_destroyable_snapshot vdev (timetuple c2) date_format snapshot
    = Return true.
Proof.
  intros vdev date_format snapshot c1 c2 Hle.
  unfold is_destroyable_snapshot.
  destruct (strptime snapshot (snapshot_name vdev date_format))
    as [t | []]; try discriminate.
  intros H. injection H as H. f_equal.
  exact (struct_time_ltb_later t _ _ H (timetuple_monotone c1 c2 Hle)).
Qed.

(** The cutoff of an override that is not 0. *)
Lemma compute_cutoff_truthy (policy : SnapshotPolicy) (n : Z) (c : datetime) :
  n <> 0 ->
  compute_cutoff policy (Some n) = Return c ->
  exists u : Z,
    0 < u /\ dt_microseconds c = dt_microseconds NOW - n * u
    /\ forall (m : Z) (c' : datetime),
         m <> 0 ->
         compute_cutoff policy (Some m) = Return c' ->
         dt_microseconds c' = dt_microseconds NOW - m * u.
Proof.
  intros Hn. unfold compute_cutoff, truthy.
  rewrite (proj2 (Z.eqb_neq n 0) Hn).
  assert (Hgen : forall (kw : string) (k : Z),
             0 < k ->
             forall n c,
             (lifetime <- new_timedelta kw (n * k) ;;
              datetime_sub NOW lifetime)%result = Return c ->
             exists u : Z,
               keyword_microseconds kw = Some u
               /\ dt_microseconds c = dt_microseconds NOW - n * (k * u)).
  { intros kw k Hk n0 c0. unfold new_timedelta, rbind.
    destruct (keyword_microseconds kw) as [u |]; [| discriminate].
    destruct (Z.abs _ <=? MAX_DELTA_DAYS); [| discriminate].
    unfold datetime_sub. cbn [td_microseconds].
    destruct (datetime_in_range _); [| discriminate].
    intros H. injection H as <-. exists u. cbn [dt_microseconds].
    split; [reflexivity | ring]. }
  assert (Hpos : forall kw u, keyword_microseconds kw = Some u -> 0 < u).
  { intros kw u. unfold keyword_microseconds, US_PER_DAY, US_PER_SECOND.
    repeat match goal with
           | |- context [if ?b then _ else _] => destruct b
           end; intros H; try discriminate; injection H as <-; lia. }
  set (pick := fun m : Z =>
         if (name policy =? "years")%string
         then ("weeks", m * WEEKS_IN_A_YEAR)
         else if (name policy =? "months")%string
         then ("weeks", m * WEEKS_IN_A_MONTH)
         else (name policy, m)).
  assert (Hpick : exists (kw : string) (k : Z),
             0 < k /\ forall m, pick m = (kw, m * k)).
  { subst pick. cbv beta.
    destruct (name policy =? "years")%string;
      [exists "weeks", WEEKS_IN_A_YEAR; split; [reflexivity | reflexivity] |].
    destruct (name policy =? "months")%string;
      [exists "weeks", WEEKS_IN_A_MONTH; split; [reflexivity | reflexivity] |].
    exists (name policy), 1. split; [lia |]. intros m. now rewrite Z.mul_1_r. }
  destruct Hpick as (kw & k & Hk & Hpick).
  fold (pick n). rewrite Hpick. intros Hc.
  destruct (Hgen kw k Hk n c Hc) as (u & Hu & Hdt).
  exists (k * u). split; [pose proof (Hpos kw u Hu); nia |].
  split; [exact Hdt |].
  intros m c' Hm. rewrite (proj2 (Z.eqb_neq m 0) Hm).
  fold (pick m). rewrite Hpick. intros Hc'.
  destruct (Hgen kw k Hk m c' Hc') as (u' & Hu' & Hdt').
  rewrite Hu in Hu'. injection Hu' as <-. exact Hdt'.
Qed.

(** X13. A longer lifetime keeps more: of two overrides that are not 0,
    the larger one gives the earlier cutoff, and what is expired under the
    larger one is expired under the smaller one. *)
Theorem longer_lifetime_keeps_more :
  forall (policy : SnapshotPolicy) (n1 n2 : Z) (c1 c2 : datetime)
         (vdev date_format snapshot : string),
    n1 <> 0 -> n1 <= n2 -> n2 <> 0 ->
    compute_cutoff policy (Some n1) = Return c1 ->
    compute_cutoff policy (Some n2) = Return c2 ->
    dt_microseconds c2 <= dt_microseconds c1
    /\ (is_destroyable_snapshot vdev (timetuple c2) date_format snapshot
        = Return true ->
        is_destroyable_snapshot vdev (timetuple c1) date_format snapshot
        = Return true).
Proof.
  intros policy n1 n2 c1 c2 vdev date_format snapshot Hn1 Hle Hn2 Hc1 Hc2.
  destruct (compute_cutoff_truthy policy n1 c1 Hn1 Hc1) as (u & Hu & H1 & Hall).
  pose proof (Hall n2 c2 Hn2 Hc2) as H2.
  assert (Hdt : dt_microseconds c2 <= dt_microseconds c1) by nia.
  split; [exact Hdt |].
  unfold is_destroyable_snapshot.
  destruct (strptime snapshot (snapshot_name vdev date_format))
    as [t | []]; try discriminate.
  intros H. injection H as H. f_equal.
  exact (struct_time_ltb_later t _ _ H (timetuple_monotone c2 c1 Hdt)).
Qed.

(** X21. An override that is not 0 makes the name of the policy a keyword
    of [timedelta]: for a policy that is neither "years" nor "months" and
    whose name is no such keyword the calculator raises [TypeError], while
    without an override the name is not looked at. *)
Theorem compute_cutoff_unknown_policy :
  forall (policy : SnapshotPolicy) (n : Z),
    n <> 0 ->
    name policy <> "years" -> name policy <> "months" ->
    keyword_microseconds (name policy) = None ->
    compute_cutoff policy (Some n) = Raise TypeError
    /\ compute_cutoff policy None = datetime_sub NOW (lifetime policy).
Proof.
  intros policy n Hn Hy Hm Hkw. split; [| reflexivity].
  unfold compute_cutoff, truthy. rewrite (proj2 (Z.eqb_neq n 0) Hn).
  rewrite (proj2 (String.eqb_neq _ _) Hy), (proj2 (String.eqb_neq _ _) Hm).
  unfold new_timedelta. now rewrite Hkw.
Qed.

(** X25. In overrides a year is thirteen months: an override of [n]
    "years", [n] not 0, and an override of 13 times [n] "months" give the
    same cutoff, or fail alike, since the one counts 52 weeks and the other
    4. *)
Theorem compute_cutoff_year_is_thirteen_months :
  forall (years months : SnapshotPolicy) (n : Z),
    name years = "years" -> name months = "months" -> n <> 0 ->
    compute_cutoff years (Some n) = compute_cutoff months (Some (13 * n)).
Proof.
  intros years months n Hy Hm Hn. unfold compute_cutoff, truthy.
  rewrite (proj2 (Z.eqb_neq n 0) Hn).
  rewrite (proj2 (Z.eqb_neq (13 * n) 0)) by lia.
  rewrite Hy, Hm. cbn [String.eqb Ascii.eqb Bool.eqb].
  unfold WEEKS_IN_A_YEAR, WEEKS_IN_A_MONTH.
  now replace (13 * n * 4) with (n * 52) by ring.
Qed.

(** *** The order of the destroys and of the passes *)

Lemma filter_result_filter {A : Type} (p : A -> result bool) (l l' : list A) :
  filter_result p l = Return l' ->
  l' = filter (fun a => match p a with Return b => b | Raise _ => false end) l.
Proof.
  revert l'. induction l as [| x l IH]; intros l' Hl.
  - cbn in Hl. now injection Hl as <-.
  - cbn [filter_result filter] in Hl |- *. unfold rbind in Hl.
    destruct (p x) as [b |]; [| discriminate].
    destruct (filter_result p l) as [rest |]; [| discriminate].
    injection Hl as <-. rewrite <- (IH rest eq_refl). reflexivity.
Qed.

Lemma Permutation_filter' {A : Type} (f : A -> bool) (l1 l2 : list A) :
  Permutation l1 l2 -> Permutation (filter f l1) (filter f l2).
Proof.
  induction 1 as [| x l1 l2 _ IH | x y l | l1 l2 l3 _ IH1 _ IH2]; cbn.
  - constructor.
  - destruct (f x); [now constructor | assumption].
  - destruct (f x), (f y); try reflexivity. apply perm_swap.
  - now transitivity (filter f l2).
Qed.

(** X14. The order of the destroys does not depend on the order in which
    the tool lists the snapshots: two listings with the same names, each
    as often, give the same expired snapshots in the same order. *)
Theorem destroy_order_ignores_listing_order :
  forall (vdev : string) (cutoff : struct_time) (date_format : string)
         (listed1 listed2 expired1 expired2 : list string),
    Permutation listed1 listed2 ->
    filter_result (is_destroyable_snapshot vdev cutoff date_format) listed1
    = Return expired1 ->
    filter_result (is_destroyable_snapshot vdev cutoff date_format) listed2
    = Return expired2 ->
    sorted_reverse expired1 = sorted_reverse expired2.
Proof.
  intros vdev cutoff date_format listed1 listed2 expired1 expired2
    Hperm H1 H2.
  apply filter_result_filter in H1, H2. subst expired1 expired2.
  apply descending_unique; try apply sorted_reverse_descending.
  rewrite !sorted_reverse_permutation. now apply Permutation_filter'.
Qed.

Lemma starts_with_leb (p s : string) :
  starts_with p s = true -> (p <=? s)%string = true.
Proof.
  unfold String.leb. revert s.
  induction p as [| a p IH]; intros [| b s]; cbn; try congruence.
  rewrite andb_true_iff. intros [Hab Hps].
  apply Ascii.eqb_eq in Hab. subst b. rewrite ascii_compare_refl.
  now apply IH.
Qed.

Lemma StronglySorted_app_r {A : Type} (R : A -> A -> Prop) (l1 l2 : list A) :
  StronglySorted R (l1 ++ l2) -> StronglySorted R l2.
Proof.
  induction l1 as [| a l1 IH]; cbn; [trivial |].
  intros H. apply IH. now inversion H.
Qed.

(** X22. Descendants go first: in the order of the passes a dataset whose
    name starts with the name of another target, and is longer, has its
    pass before that target, as [tank/home] before [tank]. *)
Theorem descendants_before_ancestors :
  forall (vdevs before after : list string) (parent child : string),
    sorted_reverse vdevs = (before ++ parent :: after)%list ->
    In child vdevs ->
    starts_with parent child = true ->
    child <> parent ->
    In child before.
Proof.
  intros vdevs before after parent child Hsorted Hin Hprefix Hne.
  apply sorted_reverse_In in Hin. rewrite Hsorted in Hin.
  apply in_app_or in Hin. destruct Hin as [Hin | [Heq | Hin]];
    [assumption | congruence |].
  exfalso. apply Hne.
  pose proof (sorted_reverse_descending vdevs) as Hd.
  rewrite Hsorted in Hd. apply descending_strongly in Hd.
  apply StronglySorted_app_r in Hd.
  inversion Hd as [| ? ? _ Hall]; subst.
  rewrite Forall_forall in Hall.
  apply String.leb_antisym; [now apply Hall | now apply starts_with_leb].
Qed.

(** *** The validators and the program *)

Lemma lifetime_type_converted (optarg : string) (n : Z) :
  lifetime_type optarg = Converted n -> 0 < n.
Proof.
  unfold lifetime_type.
  destruct (int_of_string optarg) as [value | e]; [| discriminate].
  destruct (Z.leb_spec value 0) as [| Hpos]; [discriminate |].
  intros E. injection E as <-. exact Hpos.
Qed.

(** X18. The cutoff of validated arguments is in the past: with a
    lifetime that [lifetime_type] converted, and with no lifetime and a
    policy of the table, the cutoff is strictly before [NOW]. *)
Theorem validated_cutoff_in_the_past :
  forall (policy : SnapshotPolicy) (lifetime_override : option Z)
         (cutoff : datetime),
    (lifetime_override = None /\ In policy SNAPSHOT_CATEGORIES)
    \/ (exists (optarg : string) (n : Z),
          lifetime_type optarg = Converted n /\ lifetime_override = Some n) ->
    compute_cutoff policy lifetime_override = Return cutoff ->
    dt_microseconds cutoff < dt_microseconds NOW.
Proof.
  intros policy lifetime_override cutoff
    [[-> Hin] | (optarg & n & Hn & ->)] Hcut.
  - rewrite compute_cutoff_falsy in Hcut by reflexivity.
    unfold datetime_sub in Hcut.
    destruct (datetime_in_range _); [| discriminate].
    injection Hcut as <-. cbn [dt_microseconds].
    unfold SNAPSHOT_CATEGORIES in Hin. cbn [In] in Hin.
    destruct Hin as [<- | [<- | [<- | [<- | []]]]];
      cbn [lifetime td_microseconds timedelta_weeks timedelta_days];
      unfold WEEKS_IN_A_YEAR, WEEKS_IN_A_MONTH, US_PER_DAY, US_PER_SECOND; lia.
  - apply lifetime_type_converted in Hn.
    destruct (compute_cutoff_truthy policy n cutoff) as (u & Hu & Hdt & _);
      [lia | assumption |].
    nia.
Qed.

Lemma contains_In (l : list string) (x : string) :
  contains l x = true <-> In x l.
Proof.
  unfold contains. rewrite existsb_exists. split.
  - intros (y & Hy & E). apply String.eqb_eq in E. now subst.
  - intros Hin. exists x. split; [assumption | apply String.eqb_refl].
Qed.

(** X20. [vdev_type] converts only what the one listing it asks for names:
    the value is the argument as given, it is one of the words of the
    answer of the tool, so it is not empty and holds no white space. *)
Theorem vdev_type_accepts_listed_words :
  forall (optarg : string) (tr tr' : trace) (value : string),
    vdev_type optarg tr = (Converted value, tr') ->
    value = optarg
    /\ word optarg = true
    /\ tr' = (tr ++ [list_vdevs_command])%list
    /\ exists out : string,
         zfs_tool tr list_vdevs_command = Return out /\ In optarg (split out).
Proof.
  intros optarg tr tr' value. unfold vdev_type. rewrite list_vdevs_run.
  destruct (zfs_tool tr list_vdevs_command) as [out | e]; [| discriminate].
  destruct (is_nil (split out)); [discriminate |].
  destruct (contains (split out) optarg) eqn:E; [| discriminate].
  intros H. injection H as <- <-. apply contains_In in E.
  split; [reflexivity |]. split.
  - pose proof (split_from_words out "" eq_refl) as Hwords.
    rewrite Forall_forall in Hwords. now apply Hwords.
  - split; [reflexivity | now exists out].
Qed.

End Program.

(** ** The reference parser and the sample world *)



Lemma empty_pool_answers : tool_answers Sample.empty_pool.
Proof. intros history arg_str. eexists. reflexivity. Qed.

(** The four composite date formats, and the formats [main] builds from
    them with the default prefix. *)
Example composite_formats :
  map composite_format [0; 1; 2; 3]%nat
  = ["%Y"; "%Y.%m"; "%Y.%m.%d"; "%Y.%m.%d.%H"]
  /\ map (fun i => date_format_of i) [0; 1; 2; 3; 4]%nat
     = [Return "%Y"; Return "%Y.%m"; Return "%Y.%m.%d"; Return "%Y.%m.%d.%H";
        Raise IndexError]
  /\ snapshot_name_format "auto" 3 Sample.hours = "auto-%Y.%m.%d.%HH".
Proof. repeat split. Qed.

(** The run on the sample pool: [tank/home] before [tank], the two expired
    snapshots of [tank] in descending order, the manual snapshot and the
    recent one kept. *)
Example main_on_the_sample_pool :
  main Sample.zfs_tool Reference.strptime Reference.strftime Sample.NOW
    Sample.no_options []
  = (Return 0,
     ["list -H -t filesystem,volume -o name";
      "list -H -t snapshot  -o name tank/home";
      "snapshot tank/home@auto-2026.11.06.12H";
      "list -H -t snapshot  -o name tank";
      "destroy tank@auto-2026.11.05.10H";
      "destroy tank@auto-2026.11.04.09H";
      "snapshot tank@auto-2026.11.06.12H"]).
Proof. vm_compute. reflexivity. Qed.

(** Two named volumes without snapshots: ["b"] then ["a"], no destroy, one
    create each with the time of the run. *)
Example main_on_two_empty_volumes :
  main Sample.empty_pool Reference.strptime Reference.strftime Sample.NOW
    Sample.two_volumes []
  = (Return 0,
     ["list -H -t snapshot  -o name b"; "snapshot b@auto-2026.11.06.12H";
      "list -H -t snapshot  -o name a"; "snapshot a@auto-2026.11.06.12H"]).
Proof. vm_compute. reflexivity. Qed.

(** The pass over the volume [v], whose three dated snapshots are expired:
    the destroys go in descending order of the names. *)
Example destroy_order_on_the_volume_v :
  execute_snapshot_policy Sample.zfs_tool Reference.strptime Reference.strftime
    "v" (timetuple Sample.NOW) (timetuple Sample.NOW) "%Y.%m.%d" false []
  = (Return tt,
     ["list -H -t snapshot  -o name v"; "destroy v@2020.06.01";
      "destroy v@2020.01.01"; "destroy v@2019.12.31";
      "snapshot v@2026.11.06"]).
Proof. vm_compute. reflexivity. Qed.

(** No volume named and none on the system: one listing, then the error. *)
Example main_without_any_volume :
  main Sample.empty_pool Reference.strptime Reference.strftime Sample.NOW
    Sample.no_options []
  = (Raise VdevNotFoundError, ["list -H -t filesystem,volume -o name"]).
Proof. vm_compute. reflexivity. Qed.

(** A failure of the tool ends the run at the failing command. *)
Example main_on_a_broken_tool :
  main Sample.broken_tool Reference.strptime Reference.strftime Sample.NOW
    Sample.two_volumes []
  = (Raise CalledProcessError, ["list -H -t snapshot  -o name b"]).
Proof. vm_compute. reflexivity. Qed.

(** The order of the tuples looks at the day of the week as well: two
    tuples of one instant that differ there, which [timetuple] never builds,
    are in the order of their days of the week. *)
Example tuple_order_on_ill_formed_values :
  let t := mk_struct_time 2020 1 1 0 0 0 0 1 (-1) in
  let c := mk_struct_time 2020 1 1 0 0 0 2 1 (-1) in
  well_formed t = false
  /\ well_formed c = true
  /\ instant t = instant c
  /\ struct_time_ltb t c = true.
Proof. repeat split. Qed.

(** The pattern of [time.strptime] ignores case, also in the volume name. *)
Example classifier_ignores_case :
  is_destroyable_snapshot Reference.strptime "tank" (timetuple Sample.NOW)
    "auto-%Y.%m.%d.%HH" "TANK@AUTO-2026.11.04.09h" = Return true.
Proof. vm_compute. reflexivity. Qed.

(** A prefix that repeats a directive of the date format makes
    [time.strptime] raise [re.error], which is not a [ValueError]. *)
Example classifier_lets_regex_errors_through :
  is_destroyable_snapshot Reference.strptime "tank" (timetuple Sample.NOW)
    "%Y-%Y.%m.%d.%HH" "tank@before_reboot" = Raise RegexError.
Proof. vm_compute. reflexivity. Qed.

(** ** The tests of the repository, on the model *)

(** [test_create_snapshot] and [test_destroy_snapshot]. *)
Example test_create_snapshot :
  create_snapshot Sample.empty_pool "a/bogus/vdev" "test-1900.01.01d" []
  = (Return tt, ["snapshot a/bogus/vdev@test-1900.01.01d"]).
Proof. reflexivity. Qed.

Example test_destroy_snapshot :
  destroy_snapshot Sample.empty_pool "a-bogus-snapshot" []
  = (Return tt, ["destroy a-bogus-snapshot"]).
Proof. reflexivity. Qed.

(** [test_list_snapshots]: the output is joined with line feeds, without a
    last one. *)
Example test_list_snapshots :
  list_snapshots
    (Sample.answering
       (String.concat Sample.NL
          ["a/bogus/vdev@date1"; "a/bogus/vdev/nested@date1";
           "a/bogus/vdev/nested@date2"]))
    "a/bogus/vdev" true []
  = (Return ["a/bogus/vdev@date1"; "a/bogus/vdev/nested@date1";
             "a/bogus/vdev/nested@date2"],
     ["list -H -t snapshot  -r -o name a/bogus/vdev"]).
Proof. vm_compute. reflexivity. Qed.

(** [test_list_vdevs]. *)
Example test_list_vdevs :
  list_vdevs
    (Sample.answering
       (String.concat Sample.NL ["vdev1"; "vdev2"; "vdev3/sub-vdev"])) []
  = (Return ["vdev1"; "vdev2"; "vdev3/sub-vdev"],
     ["list -H -t filesystem,volume -o name"])
  /\ list_vdevs (Sample.answering "") []
     = (Raise VdevNotFoundError, ["list -H -t filesystem,volume -o name"]).
Proof. split; vm_compute; reflexivity. Qed.

(** [test_is_destroyable_snapshot], at the clock of the sample world, with
    the cutoffs one day ahead and one day back. *)
Example test_is_destroyable_snapshot :
  let date_format := "%Y-%m-%d-%H.%M" in
  let future_cutoff := timetuple (datetime_of 2026 11 7 0 0 0 0) in
  let past_cutoff := timetuple (datetime_of 2026 11 5 0 0 0 0) in
  Reference.strftime date_format (timetuple Sample.NOW)
  = Return "2026-11-06-12.30"
  /\ is_destroyable_snapshot Reference.strptime "vdev" future_cutoff
       date_format "vdev@2026-11-06-12.30" = Return true
  /\ is_destroyable_snapshot Reference.strptime "vdev/nested" past_cutoff
       date_format "vdev@2026-11-06-12.30" = Return false
  /\ is_destroyable_snapshot Reference.strptime "vdev" past_cutoff
       date_format "vdev@before_reboot" = Return false
  /\ is_destroyable_snapshot Reference.strptime "vdev" past_cutoff
       date_format "vdev@2026-11-06-12.30" = Return false.
Proof. repeat split; vm_compute; reflexivity. Qed.

(** [test_compute_cutoff]. *)
Example test_compute_cutoff :
  compute_cutoff Sample.NOW Sample.hours (Some 42)
  = Return (minus Sample.NOW (timedelta_hours 42))
  /\ compute_cutoff Sample.NOW Sample.hours None
     = Return (minus Sample.NOW (lifetime Sample.hours)).
Proof. split; vm_compute; reflexivity. Qed.

(** [test_compute_vdevs]. *)
Example test_compute_vdevs :
  compute_vdevs Sample.bogus_pool ["bogus-vdev"] true []
  = (Return ["bogus-vdev"; "bogus-vdev/nested"],
     ["list -H -o name -r bogus-vdev"])
  /\ compute_vdevs Sample.bogus_pool ["bogus-vdev"; "another/bogus/vdev"] true []
     = (Return ["bogus-vdev"; "bogus-vdev/nested"; "another/bogus/vdev"],
        ["list -H -o name -r bogus-vdev";
         "list -H -o name -r another/bogus/vdev"])
  /\ compute_vdevs Sample.bogus_pool ["bogus-vdev"; "another/bogus/vdev"] false []
     = (Return ["bogus-vdev"; "another/bogus/vdev"], [])
  /\ compute_vdevs Sample.bogus_pool ["bogus-vdev"] false []
     = (Return ["bogus-vdev"], [])
  /\ compute_vdevs Sample.bogus_pool [] false []
     = (Return ["bogus-vdev"; "bogus-vdev/nested"; "another/bogus/vdev"],
        ["list -H -t filesystem,volume -o name"]).
Proof. repeat split; vm_compute; reflexivity. Qed.

(** ** The claims at concrete inputs *)


(** C2 on a snapshot taken at the cutoff, to the second. *)
Lemma is_destroyable_snapshot_expired_iff_earlier_witness :
  exists is_expired : bool,
    is_destroyable_snapshot Reference.strptime "tank"
      (timetuple (datetime_of 2026 11 5 10 0 0 0))
      "auto-%Y.%m.%d.%HH" "tank@auto-2026.11.05.10H" = Return is_expired
    /\ (is_expired = true
        <-> instant (mk_struct_time 2026 11 5 10 0 0 3 309 (-1))
            < instant (timetuple (datetime_of 2026 11 5 10 0 0 0)))
    /\ (instant (mk_struct_time 2026 11 5 10 0 0 3 309 (-1))
        = instant (timetuple (datetime_of 2026 11 5 10 0 0 0))
        -> is_expired = false)
    /\ (instant (mk_struct_time 2026 11 5 10 0 0 3 309 (-1))
        = instant (timetuple (datetime_of 2026 11 5 10 0 0 0)) - 1
        -> is_expired = true).
Proof.
  apply (is_destroyable_snapshot_expired_iff_earlier Reference.strptime "tank"
           (timetuple (datetime_of 2026 11 5 10 0 0 0))
           "auto-%Y.%m.%d.%HH" "tank@auto-2026.11.05.10H"
           (mk_struct_time 2026 11 5 10 0 0 3 309 (-1)));
    vm_compute; reflexivity.
Defined.

(** C3 at two "years": the cutoff is 104 weeks before now. *)
Lemma compute_cutoff_override_witness :
  compute_cutoff Sample.NOW Sample.years (Some 2)
  = Return (minus Sample.NOW (override_lifetime "years" 2)).
Proof.
  apply (compute_cutoff_override Sample.NOW eq_refl Sample.years 2).
  - left. reflexivity.
  - reflexivity.
  - reflexivity.
Defined.

(** C3 as stated fails at 5000 "years": 260000 weeks before now is before
    0001-01-01, and the subtraction raises. *)
Lemma compute_cutoff_override_overflows :
  0 < 5000
  /\ name Sample.years = "years"
  /\ compute_cutoff Sample.NOW Sample.years (Some 5000) = Raise OverflowError
  /\ compute_cutoff Sample.NOW Sample.years (Some 5000)
     <> Return (minus Sample.NOW (timedelta_weeks (5000 * 52))).
Proof.
  split; [reflexivity |]. split; [reflexivity |].
  split; [vm_compute; reflexivity |].
  vm_compute. discriminate.
Qed.

(** C4 on the clock of the sample world. *)
Lemma compute_cutoff_default_witness :
  map (fun policy => (name policy, lifetime policy)) SNAPSHOT_CATEGORIES
  = [("years", timedelta_weeks 104); ("months", timedelta_weeks 52);
     ("days", timedelta_weeks 4); ("hours", timedelta_days 1)]
  /\ forall policy : SnapshotPolicy,
      In policy SNAPSHOT_CATEGORIES ->
      compute_cutoff Sample.NOW policy None
      = Return (minus Sample.NOW (lifetime policy)).
Proof.
  apply (compute_cutoff_default Sample.NOW). reflexivity.
Defined.


(** C10 on the clock of the sample world, for "hours". *)
Lemma compute_cutoff_zero_override_witness :
  compute_cutoff Sample.NOW Sample.hours (Some 0)
  = Return (minus Sample.NOW (lifetime Sample.hours))
  /\ compute_cutoff Sample.NOW Sample.hours (Some 0)
     = compute_cutoff Sample.NOW Sample.hours None.
Proof.
  apply (compute_cutoff_zero_override Sample.NOW eq_refl).
  do 3 right. left. reflexivity.
Defined.






(** ** The validators of the command line *)

Lemma period_index_spec (value : string) (l : list SnapshotPolicy) (k i : nat) :
  period_index value k l = Some i ->
  exists category : SnapshotPolicy,
    (k <= i)%nat /\ nth_error l (i - k) = Some category
    /\ name category = value.
Proof.
  revert k. induction l as [| x l IH]; intros k; cbn [period_index];
    [discriminate |].
  destruct (String.eqb_spec (name x) value) as [E | _].
  - intros H. injection H as <-. exists x.
    rewrite Nat.sub_diag. repeat split; [lia | assumption].
  - intros H. destruct (IH (S k) H) as (category & Hle & Hnth & Hname).
    exists category. replace (i - k)%nat with (S (i - S k)) by lia.
    repeat split; [lia | assumption | assumption].
Qed.

(** X15. A period that [period_type] converts is an index of the policy
    table: the entry there is the one named by the argument in lower case,
    and the date format of [main] for this index is the composite format,
    so that neither lookup of [main] raises. *)
Theorem period_type_sound :
  forall (optarg : string) (i : nat),
    period_type optarg = Converted i ->
    exists category : SnapshotPolicy,
      getitem SNAPSHOT_CATEGORIES i = Return category
      /\ name category = str_lower optarg
      /\ date_format_of i = Return (composite_format i).
Proof.
  intros optarg i. unfold period_type.
  destruct (period_index (str_lower optarg) 0 SNAPSHOT_CATEGORIES)
    as [j |] eqn:E; [| discriminate].
  intros H. injection H as ->.
  destruct (period_index_spec _ _ _ _ E) as (category & _ & Hnth & Hname).
  rewrite Nat.sub_0_r in Hnth.
  exists category. split; [now apply getitem_nth_error |].
  split; [assumption |].
  apply date_format_of_in_table.
  assert (Hlt : (i < List.length SNAPSHOT_CATEGORIES)%nat)
    by (apply nth_error_Some; rewrite Hnth; discriminate).
  cbn in Hlt. lia.
Qed.

(** X16. Every name of the policy table is a period, in any mix of upper
    and lower case, and [period_type] converts it to the index of its
    entry. *)
Theorem period_type_complete :
  forall (optarg : string) (i : nat) (category : SnapshotPolicy),
    nth_error SNAPSHOT_CATEGORIES i = Some category ->
    str_lower optarg = name category ->
    period_type optarg = Converted i.
Proof.
  intros optarg i category Hnth Hlower. unfold period_type. rewrite Hlower.
  do 4 (destruct i as [| i]; [injection Hnth as <-; reflexivity |]).
  destruct i; discriminate.
Qed.

(** X17. An argument that in lower case is no name of the policy table is
    refused, and the message quotes it as it was given. *)
Theorem period_type_refuses :
  forall optarg : string,
    (forall category : SnapshotPolicy,
        In category SNAPSHOT_CATEGORIES ->
        name category <> str_lower optarg) ->
    period_type optarg = Refused ("Invalid --snapshot-period: " ++ optarg).
Proof.
  intros optarg Hnone. unfold period_type.
  destruct (period_index (str_lower optarg) 0 SNAPSHOT_CATEGORIES)
    as [j |] eqn:E; [| reflexivity].
  destruct (period_index_spec _ _ _ _ E) as (category & _ & Hnth & Hname).
  apply nth_error_In in Hnth. now apply Hnone in Hnth.
Qed.

(** *** Numerals *)

Lemma scan_digits_acc (d : Decimal.uint) (acc : positive) (count : nat) :
  scan_digits (NilEmpty.string_of_uint d) true (Z.pos acc) count
  = Some (Z.pos (Pos.of_uint_acc d acc),
          (count + Decimal.nb_digits d)%nat, "").
Proof.
  revert acc count.
  induction d as [| d IH | d IH | d IH | d IH | d IH | d IH | d IH | d IH
                 | d IH | d IH];
    intros acc count;
    cbn [NilEmpty.string_of_uint Decimal.nb_digits Pos.of_uint_acc];
    [cbn; now rewrite Nat.add_0_r | ..];
    cbn [scan_digits];
    match goal with
    | |- context [is_digit ?c] => change (is_digit c) with true
    end; cbv iota;
    match goal with
    | |- context [Z.of_nat (code ?c) - 48] =>
        let v := eval vm_compute in (Z.of_nat (code c) - 48) in
        change (Z.of_nat (code c) - 48) with v
    end;
    rewrite <- Nat.add_succ_comm;
    match goal with
    | |- scan_digits _ true ?a _ = Some (Z.pos (Pos.of_uint_acc d ?b), _, _) =>
        replace a with (Z.pos b) by lia
    end;
    apply IH.
Qed.

Lemma scan_digits_numeral (d : Decimal.uint) (after_digit : bool)
    (count : nat) :
  (d = Decimal.Nil -> after_digit = true) ->
  scan_digits (NilEmpty.string_of_uint d) after_digit 0 count
  = Some (Z.of_N (Pos.of_uint d), (count + Decimal.nb_digits d)%nat, "").
Proof.
  revert after_digit count.
  induction d as [| d IH | d IH | d IH | d IH | d IH | d IH | d IH | d IH
                 | d IH | d IH];
    intros after_digit count Hnil;
    cbn [NilEmpty.string_of_uint Decimal.nb_digits Pos.of_uint].
  - rewrite (Hnil eq_refl). cbn. now rewrite Nat.add_0_r.
  - cbn [scan_digits]. change (is_digit "0") with true. cbv iota.
    rewrite <- Nat.add_succ_comm. apply IH. reflexivity.
  - cbn [scan_digits]. change (is_digit "1") with true. cbv iota.
    rewrite <- Nat.add_succ_comm. apply (scan_digits_acc d 1).
  - cbn [scan_digits]. change (is_digit "2") with true. cbv iota.
    rewrite <- Nat.add_succ_comm. apply (scan_digits_acc d 2).
  - cbn [scan_digits]. change (is_digit "3") with true. cbv iota.
    rewrite <- Nat.add_succ_comm. apply (scan_digits_acc d 3).
  - cbn [scan_digits]. change (is_digit "4") with true. cbv iota.
    rewrite <- Nat.add_succ_comm. apply (scan_digits_acc d 4).
  - cbn [scan_digits]. change (is_digit "5") with true. cbv iota.
    rewrite <- Nat.add_succ_comm. apply (scan_digits_acc d 5).
  - cbn [scan_digits]. change (is_digit "6") with true. cbv iota.
    rewrite <- Nat.add_succ_comm. apply (scan_digits_acc d 6).
  - cbn [scan_digits]. change (is_digit "7") with true. cbv iota.
    rewrite <- Nat.add_succ_comm. apply (scan_digits_acc d 7).
  - cbn [scan_digits]. change (is_digit "8") with true. cbv iota.
    rewrite <- Nat.add_succ_comm. apply (scan_digits_acc d 8).
  - cbn [scan_digits]. change (is_digit "9") with true. cbv iota.
    rewrite <- Nat.add_succ_comm. apply (scan_digits_acc d 9).
Qed.

(** A numeral starts with a digit, which is no white space and no sign. *)
Lemma numeral_head (d : Decimal.uint) :
  d <> Decimal.Nil ->
  exists (c : ascii) (s : string),
    NilEmpty.string_of_uint d = String c s
    /\ int_space c = false /\ (c =? "-")%char = false
    /\ (c =? "+")%char = false.
Proof.
  destruct d; [congruence | ..]; intros _;
    cbn [NilEmpty.string_of_uint]; eexists; eexists;
    (split; [reflexivity | repeat split; reflexivity]).
Qed.

Lemma int_of_string_numeral (p : positive) :
  (Decimal.nb_digits (Pos.to_uint p) <= MAX_STR_DIGITS)%nat ->
  int_of_string (numeral p) = Return (Z.pos p).
Proof.
  intros Hdigits. unfold int_of_string, numeral.
  destruct (numeral_head (Pos.to_uint p) (Unsigned.to_uint_nonnil p))
    as (c & s & Hs & Hspace & Hminus & Hplus).
  assert (Hskip : skip_spaces (NilEmpty.string_of_uint (Pos.to_uint p))
                  = NilEmpty.string_of_uint (Pos.to_uint p)).
  { rewrite Hs. cbn [skip_spaces]. now rewrite Hspace. }
  rewrite Hskip, Hs. cbv iota beta. rewrite Hminus, Hplus, <- Hs.
  rewrite scan_digits_numeral
    by (intros Habs; now apply Unsigned.to_uint_nonnil in Habs).
  rewrite Unsigned.of_to. cbn [Nat.add skip_spaces is_empty Z.of_N].
  apply Nat.leb_le in Hdigits. unfold Nat.ltb.
  destruct (Nat.leb_spec (S MAX_STR_DIGITS)
              (Decimal.nb_digits (Pos.to_uint p))) as [Hgt | _].
  - apply Nat.leb_le in Hdigits. lia.
  - reflexivity.
Qed.

(** X19. Round trip of the lifetime: the decimal numeral of a positive
    number, of no more digits than [int] accepts, is converted to that
    number. *)
Theorem lifetime_type_of_numeral :
  forall p : positive,
    (Decimal.nb_digits (Pos.to_uint p) <= MAX_STR_DIGITS)%nat ->
    lifetime_type (numeral p) = Converted (Z.pos p).
Proof.
  intros p Hdigits. unfold lifetime_type.
  now rewrite int_of_string_numeral.
Qed.

(** X24. A numeral behind a minus sign is an integer, and not a lifetime:
    [lifetime_type] refuses it with its message, where an argument that is
    no integer fails with the [ValueError] of [int]. *)
Theorem lifetime_type_refuses_negative :
  forall p : positive,
    (Decimal.nb_digits (Pos.to_uint p) <= MAX_STR_DIGITS)%nat ->
    int_of_string ("-" ++ numeral p) = Return (Z.neg p)
    /\ lifetime_type ("-" ++ numeral p)
       = Refused "Lifetime must be an integer value greater than 0".
Proof.
  intros p Hdigits.
  assert (Hint : int_of_string ("-" ++ numeral p) = Return (Z.neg p)).
  { unfold int_of_string, numeral. cbn [append skip_spaces].
    change (int_space "-") with false. cbv iota.
    rewrite Ascii.eqb_refl.
    rewrite scan_digits_numeral
      by (intros Habs; now apply Unsigned.to_uint_nonnil in Habs).
    rewrite Unsigned.of_to. cbn [Nat.add skip_spaces is_empty Z.of_N Z.opp].
    unfold Nat.ltb.
    destruct (Nat.leb_spec (S MAX_STR_DIGITS)
                (Decimal.nb_digits (Pos.to_uint p))) as [Hgt | _];
      [lia | reflexivity]. }
  split; [exact Hint |].
  unfold lifetime_type. rewrite Hint. reflexivity.
Qed.

(** ** What a run creates, a later run reads *)

Lemma append_assoc (a b c : string) : ((a ++ b) ++ c = a ++ b ++ c)%string.
Proof. induction a as [| x a IH]; cbn; [reflexivity | now rewrite IH]. Qed.

Lemma literal_append (a b : string) :
  literal (a ++ b) = literal a && literal b.
Proof.
  unfold literal. induction a as [| x a IH]; cbn; [reflexivity |].
  now rewrite IH, andb_assoc.
Qed.

(** Literal text ahead of a format stays as it is. *)
Lemma scan_literal (w f : string) (scanned : list (option Reference.item)) :
  literal w = true ->
  Reference.scan f = Some scanned ->
  Reference.scan (w ++ f)
  = Some (map (fun c => Some (Reference.Lit c)) (list_ascii_of_string w)
          ++ scanned)%list.
Proof.
  intros Hw Hf. induction w as [| c w IH]; [exact Hf |].
  unfold literal in Hw. cbn [all_chars] in Hw.
  apply andb_true_iff in Hw. destruct Hw as [Hc Hw].
  apply andb_true_iff in Hc. destruct Hc as [Hplain Hpercent].
  apply negb_true_iff in Hpercent.
  cbn [append Reference.scan list_ascii_of_string map app].
  rewrite Hpercent, Hplain, (IH Hw). reflexivity.
Qed.

Lemma all_some_literal (cs : list ascii)
    (scanned : list (option Reference.item)) (items : list Reference.item) :
  Reference.all_some scanned = Some items ->
  Reference.all_some (map (fun c => Some (Reference.Lit c)) cs ++ scanned)%list
  = Some (map Reference.Lit cs ++ items)%list.
Proof.
  intros H. induction cs as [| c cs IH]; [exact H |].
  cbn [map app Reference.all_some]. now rewrite IH.
Qed.

Lemma distinct_directives_literal (cs : list ascii)
    (items : list Reference.item) :
  Reference.distinct_directives (map Reference.Lit cs ++ items)%list
  = Reference.distinct_directives items.
Proof. induction cs as [| c cs IH]; [reflexivity | exact IH]. Qed.

Lemma render_items_literal (w : string) (items : list Reference.item)
    (t : struct_time) :
  Reference.render_items
    (map Reference.Lit (list_ascii_of_string w) ++ items)%list t
  = (w ++ Reference.render_items items t)%string.
Proof.
  induction w as [| c w IH]; [reflexivity |].
  cbn [list_ascii_of_string map app Reference.render_items append].
  now rewrite IH.
Qed.

Lemma match_items_literal (w : string) (items : list Reference.item)
    (s : string) (p : Reference.parsed) :
  Reference.match_items
    (map Reference.Lit (list_ascii_of_string w) ++ items)%list (w ++ s) p
  = Reference.match_items items s p.
Proof.
  induction w as [| c w IH]; [reflexivity |].
  cbn [list_ascii_of_string map app Reference.match_items append].
  now rewrite Ascii.eqb_refl.
Qed.

(** A digit reads back as its value. *)
Lemma digit_reads_back (k : Z) :
  0 <= k <= 9 ->
  in_range 48 57 (code (Reference.digit k)) = true
  /\ Reference.digit_value (Reference.digit k) = k.
Proof.
  intros Hk.
  assert (H : k = 0 \/ k = 1 \/ k = 2 \/ k = 3 \/ k = 4 \/ k = 5 \/ k = 6
              \/ k = 7 \/ k = 8 \/ k = 9) by lia.
  repeat (destruct H as [-> | H]; [split; reflexivity |]).
  subst k. split; reflexivity.
Qed.

Lemma decimal_year (y : Z) :
  1000 <= y <= 9999 ->
  Reference.decimal 4 y
  = String (Reference.digit (y / 1000))
      (String (Reference.digit (y / 100 mod 10))
         (String (Reference.digit (y / 10 mod 10))
            (String (Reference.digit (y mod 10)) ""))).
Proof.
  intros Hy. cbn [Reference.decimal].
  assert (H1 : (y <? 10) = false) by (apply Z.ltb_ge; lia).
  assert (H2 : (y / 10 <? 10) = false)
    by (apply Z.ltb_ge; Z.div_mod_to_equations; lia).
  assert (H3 : (y / 10 / 10 <? 10) = false)
    by (apply Z.ltb_ge; Z.div_mod_to_equations; lia).
  assert (H4 : (y / 10 / 10 / 10 <? 10) = true)
    by (apply Z.ltb_lt; Z.div_mod_to_equations; lia).
  rewrite H1, H2, H3, H4. unfold snoc. cbn [append].
  replace (y / 10 / 10 / 10) with (y / 1000)
    by (Z.div_mod_to_equations; lia).
  replace (y / 10 / 10 mod 10) with (y / 100 mod 10)
    by (Z.div_mod_to_equations; lia).
  reflexivity.
Qed.

(** The pattern of a two-digit directive reads the two digits of a number
    of its range, and the pattern of the year its four digits. *)
Lemma two_digits_alternatives (d : Reference.directive) (v : Z)
    (k : Z -> string -> option (Reference.parsed * string)) (s' : string)
    (r : Reference.parsed * string) :
  (d = Reference.Dm /\ 1 <= v <= 12)
  \/ (d = Reference.Dd /\ 1 <= v <= 31)
  \/ (d = Reference.DH /\ 0 <= v <= 23) ->
  k v s' = Some r ->
  Reference.first_some
    (fun alt =>
       match Reference.match_alt alt (Reference.two_digits v ++ s') 0 with
       | Some (v', rest) => k v' rest
       | None => None
       end)
    (Reference.alternatives d)
  = Some r.
Proof.
  intros [[-> Hv] | [[-> Hv] | [-> Hv]]] Hk.
  - assert (H : v = 1 \/ v = 2 \/ v = 3 \/ v = 4 \/ v = 5 \/ v = 6 \/ v = 7
                \/ v = 8 \/ v = 9 \/ v = 10 \/ v = 11 \/ v = 12) by lia.
    repeat (destruct H as [H | H]; [subst v; vm_compute; now rewrite Hk |]).
    subst v. vm_compute. now rewrite Hk.
  - assert (H : v = 1 \/ v = 2 \/ v = 3 \/ v = 4 \/ v = 5 \/ v = 6 \/ v = 7
                \/ v = 8 \/ v = 9 \/ v = 10 \/ v = 11 \/ v = 12 \/ v = 13
                \/ v = 14 \/ v = 15 \/ v = 16 \/ v = 17 \/ v = 18 \/ v = 19
                \/ v = 20 \/ v = 21 \/ v = 22 \/ v = 23 \/ v = 24 \/ v = 25
                \/ v = 26 \/ v = 27 \/ v = 28 \/ v = 29 \/ v = 30 \/ v = 31)
      by lia.
    repeat (destruct H as [H | H]; [subst v; vm_compute; now rewrite Hk |]).
    subst v. vm_compute. now rewrite Hk.
  - assert (H : v = 0 \/ v = 1 \/ v = 2 \/ v = 3 \/ v = 4 \/ v = 5 \/ v = 6
                \/ v = 7 \/ v = 8 \/ v = 9 \/ v = 10 \/ v = 11 \/ v = 12
                \/ v = 13 \/ v = 14 \/ v = 15 \/ v = 16 \/ v = 17 \/ v = 18
                \/ v = 19 \/ v = 20 \/ v = 21 \/ v = 22 \/ v = 23) by lia.
    repeat (destruct H as [H | H]; [subst v; vm_compute; now rewrite Hk |]).
    subst v. vm_compute. now rewrite Hk.
Qed.

Lemma year_alternatives (y : Z)
    (k : Z -> string -> option (Reference.parsed * string)) (s' : string)
    (r : Reference.parsed * string) :
  1000 <= y <= 9999 ->
  k y s' = Some r ->
  Reference.first_some
    (fun alt =>
       match Reference.match_alt alt (Reference.decimal 4 y ++ s') 0 with
       | Some (v', rest) => k v' rest
       | None => None
       end)
    (Reference.alternatives Reference.DY)
  = Some r.
Proof.
  intros Hy Hk. rewrite (decimal_year y Hy).
  destruct (digit_reads_back (y / 1000)) as [R3 V3];
    [Z.div_mod_to_equations; lia |].
  destruct (digit_reads_back (y / 100 mod 10)) as [R2 V2];
    [Z.div_mod_to_equations; lia |].
  destruct (digit_reads_back (y / 10 mod 10)) as [R1 V1];
    [Z.div_mod_to_equations; lia |].
  destruct (digit_reads_back (y mod 10)) as [R0 V0];
    [Z.div_mod_to_equations; lia |].
  cbn [Reference.alternatives Reference.first_some Reference.match_alt
       Reference.digits append].
  rewrite R3, R2, R1, R0, V3, V2, V1, V0.
  replace ((((0 * 10 + y / 1000) * 10 + y / 100 mod 10) * 10
            + y / 10 mod 10) * 10 + y mod 10) with y
    by (Z.div_mod_to_equations; lia).
  now rewrite Hk.
Qed.

Lemma match_items_two_digits (d : Reference.directive) (v : Z)
    (items : list Reference.item) (s' : string) (p : Reference.parsed)
    (r : Reference.parsed * string) :
  (d = Reference.Dm /\ 1 <= v <= 12)
  \/ (d = Reference.Dd /\ 1 <= v <= 31)
  \/ (d = Reference.DH /\ 0 <= v <= 23) ->
  Reference.match_items items s' (Reference.store d v p) = Some r ->
  Reference.match_items (Reference.Dir d :: items)
    (Reference.two_digits v ++ s') p
  = Some r.
Proof.
  intros Hv Hk.
  exact (two_digits_alternatives d v
           (fun v' rest =>
              Reference.match_items items rest (Reference.store d v' p))
           s' r Hv Hk).
Qed.

Lemma match_items_year (y : Z) (items : list Reference.item) (s' : string)
    (p : Reference.parsed) (r : Reference.parsed * string) :
  1000 <= y <= 9999 ->
  Reference.match_items items s' (Reference.store Reference.DY y p) = Some r ->
  Reference.match_items (Reference.Dir Reference.DY :: items)
    (Reference.decimal 4 y ++ s') p
  = Some r.
Proof.
  intros Hy Hk.
  exact (year_alternatives y
           (fun v' rest =>
              Reference.match_items items rest
                (Reference.store Reference.DY v' p))
           s' r Hy Hk).
Qed.

(** The tail of the parser on a date of the calendar. *)
Lemma finish_date (y m d hh : Z) :
  1 <= y <= 9999 -> 1 <= m <= 12 -> 1 <= d <= Calendar.days_in_month y m ->
  Reference.finish (Reference.mk_parsed (Some y) m d hh 0 0)
  = Return (build_struct_time y m d hh 0 0 (-1)).
Proof.
  intros Hy Hm Hd. unfold Reference.finish.
  cbn [Reference.p_year Reference.p_month Reference.p_day Reference.p_hour
       Reference.p_minute Reference.p_second].
  assert (Hvalid : Calendar.valid_date y m d = true).
  { unfold Calendar.valid_date.
    rewrite !andb_true_iff, !Z.leb_le. lia. }
  rewrite Hvalid. unfold build_struct_time. f_equal. f_equal.
  unfold Calendar.ymd2ord.
  change (Calendar.days_before_month y 1) with 0. ring.
Qed.

Lemma match_items_lit (c : ascii) (items : list Reference.item) (s : string)
    (p : Reference.parsed) :
  Reference.match_items (Reference.Lit c :: items) (String c s) p
  = Reference.match_items items s p.
Proof. cbn [Reference.match_items]. now rewrite Ascii.eqb_refl. Qed.

Lemma strftime_literal (w f : string) (scanned : list (option Reference.item))
    (items : list Reference.item) (t : struct_time) :
  literal w = true ->
  Reference.scan f = Some scanned ->
  Reference.all_some scanned = Some items ->
  Reference.ordinary t = true ->
  Reference.strftime (w ++ f) t
  = Return (w ++ Reference.render_items items t).
Proof.
  intros Hw Hscan Hall Hord. unfold Reference.strftime.
  rewrite (scan_literal w f scanned Hw Hscan).
  rewrite (all_some_literal _ _ _ Hall), Hord.
  now rewrite render_items_literal.
Qed.

Lemma strptime_literal (w f data : string)
    (scanned : list (option Reference.item)) (items : list Reference.item)
    (p : Reference.parsed) :
  literal w = true ->
  Reference.scan f = Some scanned ->
  Reference.all_some scanned = Some items ->
  Reference.distinct_directives items = true ->
  Reference.match_items items data Reference.defaults = Some (p, "") ->
  Reference.strptime (w ++ data) (w ++ f) = Reference.finish p.
Proof.
  intros Hw Hscan Hall Hdistinct Hmatch. unfold Reference.strptime.
  rewrite (scan_literal w f scanned Hw Hscan).
  rewrite (all_some_literal _ _ _ Hall).
  rewrite distinct_directives_literal, Hdistinct.
  now rewrite match_items_literal, Hmatch.
Qed.

Lemma days_in_month_bounds (y m : Z) :
  1 <= m <= 12 -> 28 <= Calendar.days_in_month y m <= 31.
Proof.
  intros Hm. unfold Calendar.days_in_month.
  assert (H : m = 1 \/ m = 2 \/ m = 3 \/ m = 4 \/ m = 5 \/ m = 6 \/ m = 7
              \/ m = 8 \/ m = 9 \/ m = 10 \/ m = 11 \/ m = 12) by lia.
  destruct (Calendar.is_leap y);
    repeat (destruct H as [H | H]; [subst m; vm_compute; split; discriminate |]);
    subst m; vm_compute; split; discriminate.
Qed.

Lemma ordinary_well_formed (t : struct_time) :
  well_formed t = true -> 1 <= tm_year t <= 9999 ->
  Reference.ordinary t = true.
Proof.
  intros Hwf Hy.
  destruct (well_formed_spec t Hwf) as (Hm & Hd & Hh & Hmin & Hs & Hw & Hj & _).
  pose proof (days_in_month_bounds (tm_year t) (tm_mon t) Hm) as Hdim.
  pose proof (day_of_year_bounds (tm_year t) (tm_mon t) (tm_mday t) Hm Hd)
    as Hyday.
  assert (Hyday' : 1 <= tm_yday t <= 366)
    by (rewrite Hj; destruct (Calendar.is_leap (tm_year t)); lia).
  assert (Hwday : 0 <= tm_wday t <= 6)
    by (rewrite Hw; Z.div_mod_to_equations; lia).
  unfold Reference.ordinary.
  rewrite !andb_true_iff, !Z.leb_le. lia.
Qed.

(** X23. What a pass creates, a later pass reads: for a volume and a
    prefix of plain text, a granularity of the table and a well-formed time
    of a four-digit year, the format of [main] renders, and the name
    [snapshot_name] gives the new snapshot parses against the template of
    the classifier to that time cut down to the granularity; so the
    classifier compares this time with the cutoff. *)
Theorem created_snapshot_reads_back :
  forall (vdev snapshot_prefix : string) (i : nat) (category : SnapshotPolicy)
         (now cutoff : struct_time),
    literal vdev = true ->
    literal snapshot_prefix = true ->
    nth_error SNAPSHOT_CATEGORIES i = Some category ->
    well_formed now = true ->
    1000 <= tm_year now <= 9999 ->
    exists stamp : string,
      Reference.strftime (snapshot_name_format snapshot_prefix i category) now
      = Return stamp
      /\ Reference.strptime (snapshot_name vdev stamp)
           (snapshot_name vdev
              (snapshot_name_format snapshot_prefix i category))
         = Return (truncate i now)
      /\ is_destroyable_snapshot Reference.strptime vdev cutoff
           (snapshot_name_format snapshot_prefix i category)
           (snapshot_name vdev stamp)
         = Return (struct_time_ltb (truncate i now) cutoff).
Proof.
  intros vdev snapshot_prefix i category now cutoff Hv Hp Hnth Hwf Hy.
  pose proof (ordinary_well_formed now Hwf (ltac:(lia))) as Hord.
  destruct (well_formed_spec now Hwf) as (Hm & Hd & Hh & _).
  pose proof (days_in_month_bounds (tm_year now) (tm_mon now) Hm) as Hdim.
  pose proof (days_in_month_bounds (tm_year now) 1 (ltac:(lia))) as Hdim1.
  assert (Hw : literal (vdev ++ "@" ++ snapshot_prefix) = true)
    by (rewrite !literal_append, Hv, Hp; reflexivity).
  assert (Hgen : forall (f : string) (scanned : list (option Reference.item))
                        (items : list Reference.item) (p : Reference.parsed),
             snapshot_name_format snapshot_prefix i category
             = (snapshot_prefix ++ f)%string ->
             Reference.scan f = Some scanned ->
             Reference.all_some scanned = Some items ->
             Reference.distinct_directives items = true ->
             Reference.match_items items (Reference.render_items items now)
               Reference.defaults = Some (p, "") ->
             Reference.finish p = Return (truncate i now) ->
             exists stamp : string,
               Reference.strftime
                 (snapshot_name_format snapshot_prefix i category) now
               = Return stamp
               /\ Reference.strptime (snapshot_name vdev stamp)
                    (snapshot_name vdev
                       (snapshot_name_format snapshot_prefix i category))
                  = Return (truncate i now)
               /\ is_destroyable_snapshot Reference.strptime vdev cutoff
                    (snapshot_name_format snapshot_prefix i category)
                    (snapshot_name vdev stamp)
                  = Return (struct_time_ltb (truncate i now) cutoff)).
  { intros f scanned items p -> Hscan Hall Hdistinct Hmatch Hfinish.
    exists (snapshot_prefix ++ Reference.render_items items now)%string.
    assert (Hparse :
              Reference.strptime
                (snapshot_name vdev
                   (snapshot_prefix ++ Reference.render_items items now))
                (snapshot_name vdev (snapshot_prefix ++ f))
              = Return (truncate i now)).
    { unfold snapshot_name, SNAPSHOT_SEPARATOR.
      rewrite <- (append_assoc "@" snapshot_prefix f).
      rewrite <- (append_assoc "@" snapshot_prefix
                    (Reference.render_items items now)).
      rewrite <- (append_assoc vdev ("@" ++ snapshot_prefix) f).
      rewrite <- (append_assoc vdev ("@" ++ snapshot_prefix)
                    (Reference.render_items items now)).
      rewrite (strptime_literal _ f _ scanned items p Hw Hscan Hall
                 Hdistinct Hmatch).
      exact Hfinish. }
    split; [now apply (strftime_literal _ f scanned) |].
    split; [exact Hparse |].
    unfold is_destroyable_snapshot. now rewrite Hparse. }
  assert (Hi : (i < List.length SNAPSHOT_CATEGORIES)%nat)
    by (apply nth_error_Some; rewrite Hnth; discriminate).
  cbn in Hi.
  destruct i as [| [| [| [| ]]]]; try lia; injection Hnth as <-;
    [ eapply (Hgen "-%YY") | eapply (Hgen "-%Y.%mm")
    | eapply (Hgen "-%Y.%m.%dd") | eapply (Hgen "-%Y.%m.%d.%HH") ];
    [reflexivity | reflexivity | reflexivity | reflexivity | | ..].
  all: try (cbn [Reference.render_items Reference.render];
            repeat first
              [ rewrite match_items_lit
              | apply match_items_year; [lia |]
              | apply match_items_two_digits;
                [ first [ left; split; [reflexivity | lia]
                        | right; left; split; [reflexivity | lia]
                        | right; right; split; [reflexivity | lia] ] |] ];
            reflexivity).
  all: cbv [Reference.store Reference.defaults Reference.p_year
            Reference.p_month Reference.p_day Reference.p_hour
            Reference.p_minute Reference.p_second].
  all: rewrite finish_date by lia; reflexivity.
Qed.

(** ** The facts beyond the claims, on the sample world *)

(** X1 on the sample pool. *)
Lemma list_vdevs_gives_words_witness :
  ["tank"; "tank/home"] <> []
  /\ Forall (fun vdev => word vdev = true) ["tank"; "tank/home"]
  /\ [list_vdevs_command] = ([] ++ [list_vdevs_command])%list.
Proof.
  apply (list_vdevs_gives_words Sample.zfs_tool [] [list_vdevs_command]
           ["tank"; "tank/home"]).
  vm_compute. reflexivity.
Defined.

(** X2 on a system without any dataset. *)
Lemma list_vdevs_not_found_iff_blank_witness :
  (list_vdevs Sample.empty_pool []
   = (Raise VdevNotFoundError, ([] ++ [list_vdevs_command])%list)
   <-> blank "" = true)
  /\ (blank "" = false ->
      list_vdevs Sample.empty_pool []
      = (Return (split ""), ([] ++ [list_vdevs_command])%list)).
Proof.
  apply (list_vdevs_not_found_iff_blank Sample.empty_pool [] "").
  reflexivity.
Defined.

(** X3 on the sample pool. *)
Lemma list_vdevs_of_lines_witness :
  list_vdevs Sample.zfs_tool []
  = (Return ["tank"; "tank/home"], ([] ++ [list_vdevs_command])%list).
Proof.
  apply (list_vdevs_of_lines Sample.zfs_tool [] ["tank"; "tank/home"]).
  - discriminate.
  - repeat constructor.
  - reflexivity.
Defined.

(** X4 on the volume [v] of the sample pool. *)
Lemma list_snapshots_of_lines_witness :
  list_snapshots Sample.zfs_tool "v" false []
  = (Return ["v@2020.01.01"; "v@2020.06.01"; "v@2019.12.31"],
     ([] ++ [list_snapshots_command "v" false])%list).
Proof.
  apply (list_snapshots_of_lines Sample.zfs_tool "v" false []
           ["v@2020.01.01"; "v@2020.06.01"; "v@2019.12.31"]).
  - repeat constructor.
  - reflexivity.
Defined.

(** X5 on the volume [v] of the sample pool. *)
Lemma execute_snapshot_policy_destroys_only_expired_witness :
  In (destroy_command "v@2020.06.01") []
  \/ destroyable_in Sample.zfs_tool Reference.strptime "v"
       (timetuple Sample.NOW) "%Y.%m.%d" false [] "v@2020.06.01".
Proof.
  apply (execute_snapshot_policy_destroys_only_expired Sample.zfs_tool
           Reference.strptime Reference.strftime "v" (timetuple Sample.NOW)
           (timetuple Sample.NOW) "%Y.%m.%d" false [] "v@2020.06.01").
  vm_compute. right. left. reflexivity.
Defined.


(** X7 on the volume [v] of the sample pool, with a format that names the
    year twice. *)
Lemma execute_snapshot_policy_classifier_raises_witness :
  exists (culprit : string) (e' : exn),
    In culprit
      (splitlines
         (Sample.unlines ["v@2020.01.01"; "v@2020.06.01"; "v@2019.12.31"]))
    /\ Reference.strptime culprit (snapshot_name "v" "%Y.%Y") = Raise e'
    /\ e' <> ValueError
    /\ execute_snapshot_policy Sample.zfs_tool Reference.strptime
         Reference.strftime "v" (timetuple Sample.NOW) (timetuple Sample.NOW)
         "%Y.%Y" false []
       = (Raise e', ([] ++ [list_snapshots_command "v" false])%list).
Proof.
  apply (execute_snapshot_policy_classifier_raises Sample.zfs_tool
           Reference.strptime Reference.strftime "v" (timetuple Sample.NOW)
           (timetuple Sample.NOW) "%Y.%Y" false []
           (Sample.unlines ["v@2020.01.01"; "v@2020.06.01"; "v@2019.12.31"])
           "v@2020.06.01" RegexError).
  - reflexivity.
  - vm_compute. right. left. reflexivity.
  - vm_compute. reflexivity.
  - discriminate.
Defined.

(** X8 on the volume [v] of the sample pool, with a hold on
    v@2020.01.01. *)
Lemma execute_snapshot_policy_failing_destroy_witness :
  execute_snapshot_policy (Sample.failing_on "destroy v@2020.01.01")
    Reference.strptime Reference.strftime "v" (timetuple Sample.NOW)
    (timetuple Sample.NOW) "%Y.%m.%d" false []
  = (Raise CalledProcessError,
     ([] ++ [list_snapshots_command "v" false]
         ++ map destroy_command ["v@2020.06.01"]
         ++ [destroy_command "v@2020.01.01"])%list).
Proof.
  apply (execute_snapshot_policy_failing_destroy
           (Sample.failing_on "destroy v@2020.01.01")
           Reference.strptime Reference.strftime "v" (timetuple Sample.NOW)
           (timetuple Sample.NOW) "%Y.%m.%d" false []
           (Sample.unlines ["v@2020.01.01"; "v@2020.06.01"; "v@2019.12.31"])
           ["v@2020.01.01"; "v@2020.06.01"; "v@2019.12.31"]
           ["v@2020.06.01"] ["v@2019.12.31"] "v@2020.01.01"
           CalledProcessError).
  - reflexivity.
  - vm_compute. reflexivity.
  - vm_compute. reflexivity.
  - intros s history [<- | []]. eexists. reflexivity.
  - reflexivity.
Defined.



(** X11 on the datasets of the tests of [compute_vdevs]. *)
Lemma compute_vdevs_recursive_witness :
  compute_vdevs Sample.bogus_pool ["bogus-vdev"; "another/bogus/vdev"] true []
  = (Return
       (flat_map
          (fun vdev =>
             splitlines
               (if (vdev =? "bogus-vdev")%string
                then Sample.unlines ["bogus-vdev"; "bogus-vdev/nested"]
                else Sample.unlines ["another/bogus/vdev"]))
          ["bogus-vdev"; "another/bogus/vdev"]),
     ([] ++ map descendants_command ["bogus-vdev"; "another/bogus/vdev"])%list).
Proof.
  apply (compute_vdevs_recursive Sample.bogus_pool
           (fun vdev =>
              if (vdev =? "bogus-vdev")%string
              then Sample.unlines ["bogus-vdev"; "bogus-vdev/nested"]
              else Sample.unlines ["another/bogus/vdev"])
           ["bogus-vdev"; "another/bogus/vdev"] []).
  - discriminate.
  - intros history vdev [<- | [<- | []]]; reflexivity.
Defined.

(** X12 on a snapshot of the sample pool, against the cutoff of a day ago
    and against now. *)
Lemma is_destroyable_snapshot_monotone_witness :
  is_destroyable_snapshot Reference.strptime "tank" (timetuple Sample.NOW)
    "auto-%Y.%m.%d.%HH" "tank@auto-2026.11.04.09H" = Return true.
Proof.
  apply (is_destroyable_snapshot_monotone Reference.strptime "tank"
           "auto-%Y.%m.%d.%HH" "tank@auto-2026.11.04.09H"
           (minus Sample.NOW (timedelta_days 1)) Sample.NOW).
  - vm_compute. discriminate.
  - vm_compute. reflexivity.
Defined.

(** X13 at 24 and 48 "hours". *)
Lemma longer_lifetime_keeps_more_witness :
  dt_microseconds (minus Sample.NOW (timedelta_hours 48))
  <= dt_microseconds (minus Sample.NOW (timedelta_hours 24))
  /\ (is_destroyable_snapshot Reference.strptime "tank"
        (timetuple (minus Sample.NOW (timedelta_hours 48)))
        "auto-%Y.%m.%d.%HH" "tank@auto-2026.11.04.09H" = Return true ->
      is_destroyable_snapshot Reference.strptime "tank"
        (timetuple (minus Sample.NOW (timedelta_hours 24)))
        "auto-%Y.%m.%d.%HH" "tank@auto-2026.11.04.09H" = Return true).
Proof.
  apply (longer_lifetime_keeps_more Reference.strptime Sample.NOW
           Sample.hours 24 48).
  - discriminate.
  - vm_compute. discriminate.
  - discriminate.
  - vm_compute. reflexivity.
  - vm_compute. reflexivity.
Defined.

(** X14 on the snapshots of the volume [v], listed in two orders. *)
Lemma destroy_order_ignores_listing_order_witness :
  sorted_reverse ["v@2020.01.01"; "v@2020.06.01"; "v@2019.12.31"]
  = sorted_reverse ["v@2019.12.31"; "v@2020.01.01"; "v@2020.06.01"].
Proof.
  apply (destroy_order_ignores_listing_order Reference.strptime "v"
           (timetuple Sample.NOW) "%Y.%m.%d"
           ["v@2020.01.01"; "v@2020.06.01"; "v@2019.12.31"]
           ["v@2019.12.31"; "v@2020.01.01"; "v@2020.06.01"]).
  - apply Permutation_sym.
    exact (Permutation_cons_append ["v@2020.01.01"; "v@2020.06.01"]
             "v@2019.12.31").
  - vm_compute. reflexivity.
  - vm_compute. reflexivity.
Defined.

(** X15 at [Hours]. *)
Lemma period_type_sound_witness :
  exists category : SnapshotPolicy,
    getitem SNAPSHOT_CATEGORIES 3 = Return category
    /\ name category = str_lower "Hours"
    /\ date_format_of 3 = Return (composite_format 3).
Proof.
  apply (period_type_sound "Hours" 3). vm_compute. reflexivity.
Defined.

(** X16 at [MONTHS]. *)
Lemma period_type_complete_witness :
  period_type "MONTHS" = Converted 1%nat.
Proof.
  apply (period_type_complete "MONTHS" 1
           (mk_SnapshotPolicy "months" (timedelta_weeks (1 * WEEKS_IN_A_YEAR))
              "m")).
  - reflexivity.
  - vm_compute. reflexivity.
Defined.

(** X17 at [Weeks]. *)
Lemma period_type_refuses_witness :
  period_type "Weeks" = Refused ("Invalid --snapshot-period: " ++ "Weeks").
Proof.
  apply (period_type_refuses "Weeks").
  intros category [<- | [<- | [<- | [<- | []]]]]; vm_compute; discriminate.
Defined.

(** X18 at a lifetime of two "years". *)
Lemma validated_cutoff_in_the_past_witness :
  dt_microseconds (minus Sample.NOW (timedelta_weeks 104))
  < dt_microseconds Sample.NOW.
Proof.
  apply (validated_cutoff_in_the_past Sample.NOW Sample.years (Some 2)).
  - right. exists "2", 2. split; vm_compute; reflexivity.
  - vm_compute. reflexivity.
Defined.

(** X19 at 42. *)
Lemma lifetime_type_of_numeral_witness :
  lifetime_type (numeral 42) = Converted 42.
Proof.
  apply (lifetime_type_of_numeral 42).
  apply Nat.leb_le. vm_compute. reflexivity.
Defined.

(** X20 on the sample pool. *)
Lemma vdev_type_accepts_listed_words_witness :
  "tank/home" = "tank/home"
  /\ word "tank/home" = true
  /\ [list_vdevs_command] = ([] ++ [list_vdevs_command])%list
  /\ exists out : string,
       Sample.zfs_tool [] list_vdevs_command = Return out
       /\ In "tank/home" (split out).
Proof.
  apply (vdev_type_accepts_listed_words Sample.zfs_tool "tank/home" []
           [list_vdevs_command] "tank/home").
  vm_compute. reflexivity.
Defined.

(** X21 for a policy named after no keyword. *)
Lemma compute_cutoff_unknown_policy_witness :
  compute_cutoff Sample.NOW
    (mk_SnapshotPolicy "fortnights" (timedelta_weeks 2) "f") (Some 3)
  = Raise TypeError
  /\ compute_cutoff Sample.NOW
       (mk_SnapshotPolicy "fortnights" (timedelta_weeks 2) "f") None
     = datetime_sub Sample.NOW
         (lifetime (mk_SnapshotPolicy "fortnights" (timedelta_weeks 2) "f")).
Proof.
  apply (compute_cutoff_unknown_policy Sample.NOW
           (mk_SnapshotPolicy "fortnights" (timedelta_weeks 2) "f") 3).
  - discriminate.
  - discriminate.
  - discriminate.
  - reflexivity.
Defined.

(** X22 on three targets. *)
Lemma descendants_before_ancestors_witness :
  In "tank/home" ["tank/home"].
Proof.
  apply (descendants_before_ancestors ["tank"; "tank/home"; "backup"]
           ["tank/home"] ["backup"] "tank" "tank/home").
  - vm_compute. reflexivity.
  - right. left. reflexivity.
  - reflexivity.
  - discriminate.
Defined.

(** X23 on the volume [tank], by the hour, at the clock of the sample
    world. *)
Lemma created_snapshot_reads_back_witness :
  exists stamp : string,
    Reference.strftime (snapshot_name_format "auto" 3 Sample.hours)
      (timetuple Sample.NOW)
    = Return stamp
    /\ Reference.strptime (snapshot_name "tank" stamp)
         (snapshot_name "tank" (snapshot_name_format "auto" 3 Sample.hours))
       = Return (truncate 3 (timetuple Sample.NOW))
    /\ is_destroyable_snapshot Reference.strptime "tank"
         (timetuple Sample.NOW)
         (snapshot_name_format "auto" 3 Sample.hours)
         (snapshot_name "tank" stamp)
       = Return (struct_time_ltb (truncate 3 (timetuple Sample.NOW))
                   (timetuple Sample.NOW)).
Proof.
  apply (created_snapshot_reads_back "tank" "auto" 3 Sample.hours
           (timetuple Sample.NOW) (timetuple Sample.NOW)).
  - reflexivity.
  - reflexivity.
  - reflexivity.
  - vm_compute. reflexivity.
  - split; vm_compute; discriminate.
Defined.

(** X24 at -7. *)
Lemma lifetime_type_refuses_negative_witness :
  int_of_string ("-" ++ numeral 7) = Return (Z.neg 7)
  /\ lifetime_type ("-" ++ numeral 7)
     = Refused "Lifetime must be an integer value greater than 0".
Proof.
  apply (lifetime_type_refuses_negative 7).
  apply Nat.leb_le. vm_compute. reflexivity.
Defined.

(** X25 at two "years" and 26 "months". *)
Lemma compute_cutoff_year_is_thirteen_months_witness :
  compute_cutoff Sample.NOW Sample.years (Some 2)
  = compute_cutoff Sample.NOW
      (mk_SnapshotPolicy "months" (timedelta_weeks (1 * WEEKS_IN_A_YEAR)) "m")
      (Some (13 * 2)).
Proof.
  apply (compute_cutoff_year_is_thirteen_months Sample.NOW Sample.years
           (mk_SnapshotPolicy "months" (timedelta_weeks (1 * WEEKS_IN_A_YEAR))
              "m") 2).
  - reflexivity.
  - reflexivity.
  - discriminate.
Defined.

